(** * ChatInterface: the chat widget of src/components/ChatInterface.tsx

    A shallow embedding of the component's state, of its submit handler
    [handleSendMessage] (an async function with two suspension points) and of
    the events the rendered controls can raise, followed by the properties
    of one request/response turn. *)

From Stdlib Require Import ZArith NArith Ascii String List Lia.
From Stdlib Require Import Floats.SpecFloat.
From stdpp Require Import base tactics option list pretty.

Local Open Scope Z_scope.

(** ** JavaScript strings

    A JavaScript string is a sequence of UTF-16 code units; [trim] and
    [includes] are defined on code units. *)

Module JsString.

Definition jsstring : Type := list N.

(** An ASCII literal of the source as a sequence of code units. *)
Definition lit (s : string) : jsstring :=
  map N_of_ascii (list_ascii_of_string s).

(** WhiteSpace and LineTerminator code points of ECMAScript (all of them lie
    in the basic plane, so each is one code unit). *)
Definition isWhiteSpace (c : N) : bool :=
  ((c =? 0x09) || (c =? 0x0A) || (c =? 0x0B) || (c =? 0x0C) || (c =? 0x0D)
   || (c =? 0x20) || (c =? 0xA0) || (c =? 0x1680)
   || ((0x2000 <=? c) && (c <=? 0x200A))
   || (c =? 0x2028) || (c =? 0x2029) || (c =? 0x202F) || (c =? 0x205F)
   || (c =? 0x3000) || (c =? 0xFEFF))%N.

Fixpoint trimStart (s : jsstring) : jsstring :=
  match s with
  | [] => []
  | c :: s' => if isWhiteSpace c then trimStart s' else s
  end.

Definition trimEnd (s : jsstring) : jsstring :=
  rev (trimStart (rev s)).

(** String.prototype.trim *)
Definition trim (s : jsstring) : jsstring := trimEnd (trimStart s).

(** A string is truthy exactly when it is not empty. *)
Definition truthy (s : jsstring) : bool :=
  match s with [] => false | _ :: _ => true end.

Fixpoint eqb (s t : jsstring) : bool :=
  match s, t with
  | [], [] => true
  | c :: s', d :: t' => (c =? d)%N && eqb s' t'
  | _, _ => false
  end.

Fixpoint startsWith (s p : jsstring) : bool :=
  match p, s with
  | [], _ => true
  | d :: p', c :: s' => (c =? d)%N && startsWith s' p'
  | _ :: _, [] => false
  end.

(** String.prototype.includes *)
Fixpoint includes (s p : jsstring) : bool :=
  startsWith s p ||
  match s with
  | [] => false
  | _ :: s' => includes s' p
  end.

(** Number.prototype.toString on an integral value (the clock readings). *)
Definition toString (z : Z) : jsstring := lit (pretty z).

End JsString.
Export JsString.

(** ** Arrays *)

(** Array.prototype.slice with one argument: a negative [start] counts from
    the end and is clamped at the first element, a positive one is clamped
    at the length. *)
Definition slice {A : Type} (start : Z) (l : list A) : list A :=
  let len := Z.of_nat (length l) in
  let k := if start <? 0 then Z.max (len + start) 0 else Z.min start len in
  drop (Z.to_nat k) l.

(** ** Values parsed from a response body

    [response.json()] resolves with an arbitrary JSON value ([data] has type
    [any]); numbers are IEEE doubles. *)

#[local] Unset Elimination Schemes.
Inductive json : Type :=
| JNull
| JBool (b : bool)
| JNum (x : spec_float)
| JStr (s : jsstring)
| JArr (xs : list json)
| JObj (fields : list (jsstring * json)).
#[local] Set Elimination Schemes.

Definition number_truthy (x : spec_float) : bool :=
  match x with
  | S754_zero _ | S754_nan => false
  | S754_infinity _ | S754_finite _ _ _ => true
  end.

(** ToBoolean, as used by [||]. *)
Definition json_truthy (v : json) : bool :=
  match v with
  | JNull => false
  | JBool b => b
  | JNum x => number_truthy x
  | JStr s => truthy s
  | JArr _ | JObj _ => true
  end.

Fixpoint assoc (key : jsstring) (fields : list (jsstring * json)) : option json :=
  match fields with
  | [] => None
  | (k, v) :: rest => if JsString.eqb k key then Some v else assoc key rest
  end.

Inductive Error : Type :=
| TypeError
| SyntaxError
| AbortError.

(** Reading property [key] of a parsed value, for a [key] that no built-in
    prototype defines ([response], [department]): [undefined] is [None];
    reading a property of [null] throws. *)
Definition getProp (v : json) (key : jsstring) : Error + option json :=
  match v with
  | JNull => inl TypeError
  | JObj fields => inr (assoc key fields)
  | JBool _ | JNum _ | JStr _ | JArr _ => inr None
  end.

(** [v || d] *)
Definition or_else (v : option json) (d : json) : json :=
  match v with
  | Some x => if json_truthy x then x else d
  | None => d
  end.

(** ** Messages and component state *)

Inductive Sender : Type := user | ai.

Inductive AIProvider : Type := gpt | grok | deepseek.

(** interface ChatMessage. [content] holds whatever value the handler stored
    (the reply's [response] property is not checked to be a string); an
    optional property that is absent or [undefined] is [None]; a [Date] is
    its time value. *)
Module Msg.
Record ChatMessage : Type := mk {
  id : jsstring;
  content : json;
  sender : Sender;
  timestamp : Z;
  aiProvider : option AIProvider;
  department : option json
}.
End Msg.
Abbreviation ChatMessage := Msg.ChatMessage.

(** The five [useState] cells of the component. *)
Record State : Type := mkState {
  messages : list ChatMessage;
  inputMessage : jsstring;
  isLoading : bool;
  selectedAI : AIProvider;
  selectedLanguage : jsstring
}.

(** The object passed to [JSON.stringify] for the request body. *)
Module Body.
Record ChatRequest : Type := mk {
  message : jsstring;
  aiProvider : AIProvider;
  language : jsstring;
  context : list ChatMessage
}.
End Body.
Abbreviation ChatRequest := Body.ChatRequest.

Record RequestInit : Type := mkInit {
  method : jsstring;
  contentType : jsstring;
  body : ChatRequest
}.

(** A [Response] object; the handler never looks at its status. *)
Record Response : Type := mkResponse { status : Z }.

(** ** Handler programs

    The body of an event handler is a tree of the operations it performs:
    calls that return nothing (the state setters, [console.error], the
    [onStatsUpdate] prop), clock readings, and [await]s, where the function
    is suspended until the environment settles the promise. The updater
    given to [setMessages] is kept as a function; the one given to
    [onStatsUpdate] is run by the host component and only the call is
    recorded. *)

Inductive Call : Type :=
| SetMessages (f : list ChatMessage → list ChatMessage)
| SetInputMessage (v : jsstring)
| SetIsLoading (b : bool)
| SetSelectedAI (p : AIProvider)
| SetSelectedLanguage (l : jsstring)
| ConsoleError (e : Error)
| OnStatsUpdate.

Inductive AsyncOp : Type :=
| Fetch (url : jsstring) (init : RequestInit)
| ResponseJson (r : Response).

(** What the promise of an operation resolves with. *)
Definition answer (op : AsyncOp) : Type :=
  match op with
  | Fetch _ _ => Response
  | ResponseJson _ => json
  end.

Inductive Prog (A : Type) : Type :=
| Ret (a : A)
| Throw (e : Error)
| Do (c : Call) (k : Prog A)
| Clock (k : Z → Prog A)
| Await (op : AsyncOp) (k : Error + answer op → Prog A).
Arguments Ret {A} a.
Arguments Throw {A} e.
Arguments Do {A} c k.
Arguments Clock {A} k.
Arguments Await {A} op k.

Fixpoint bind {A B : Type} (p : Prog A) (f : A → Prog B) : Prog B :=
  match p with
  | Ret a => f a
  | Throw e => Throw e
  | Do c k => Do c (bind k f)
  | Clock k => Clock (λ t, bind (k t) f)
  | Await op k => Await op (λ r, bind (k r) f)
  end.

#[global] Instance Prog_ret : MRet Prog := @Ret.
#[global] Instance Prog_bind : MBind Prog := λ A B f p, bind p f.

Definition call (c : Call) : Prog unit := Do c (Ret tt).

(** [Date.now()] and [new Date()] both read the clock. *)
Definition dateNow : Prog Z := Clock Ret.
Definition newDate : Prog Z := Clock Ret.

(** [await p]: resumes with the value, or throws the rejection reason. *)
Definition await (op : AsyncOp) : Prog (answer op) :=
  Await op (λ r, match r with inl e => Throw e | inr v => Ret v end).

(** A synchronous operation that may throw. *)
Definition lift {A : Type} (r : Error + A) : Prog A :=
  match r with inl e => Throw e | inr v => Ret v end.

(** try { p } catch (e) { h e } *)
Fixpoint try_catch {A : Type} (p : Prog A) (h : Error → Prog A) : Prog A :=
  match p with
  | Ret a => Ret a
  | Throw e => h e
  | Do c k => Do c (try_catch k h)
  | Clock k => Clock (λ t, try_catch (k t) h)
  | Await op k => Await op (λ r, try_catch (k r) h)
  end.

(** try { p } finally { f }: [f] runs on both exits and the completion of
    [p] is kept unless [f] throws itself. *)
Fixpoint finally {A : Type} (p : Prog A) (f : Prog unit) : Prog A :=
  match p with
  | Ret a => bind f (λ _, Ret a)
  | Throw e => bind f (λ _, Throw e)
  | Do c k => Do c (finally k f)
  | Clock k => Clock (λ t, finally (k t) f)
  | Await op k => Await op (λ r, finally (k r) f)
  end.

Definition try_catch_finally {A : Type}
    (p : Prog A) (h : Error → Prog A) (f : Prog unit) : Prog A :=
  finally (try_catch p h) f.

(** ** The component *)

Definition greeting : jsstring :=
  lit "Hello! I'm SKV.ChatGB, your AI assistant for UAE business services. I can help you with business setup, tax services, visa applications, document management, and more. How can I assist you today?".

Definition fallbackReply : jsstring :=
  lit "I'm sorry, I couldn't process your request right now. Please try again.".

Definition errorReply : jsstring :=
  lit "I'm experiencing technical difficulties. Please try again or contact our support team at info@skvbusiness.com".

Definition supportEmail : jsstring := lit "info@skvbusiness.com".

(** The initial values of the [useState] cells; [t0] is the clock reading of
    the first render. *)
Definition initialState (t0 : Z) : State :=
  {| messages :=
       [ {| Msg.id := lit "1";
            Msg.content := JStr greeting;
            Msg.sender := ai;
            Msg.timestamp := t0;
            Msg.aiProvider := Some gpt;
            Msg.department := None |} ];
     inputMessage := [];
     isLoading := false;
     selectedAI := gpt;
     selectedLanguage := lit "en" |}.

Definition quickActions : list jsstring :=
  [ lit "Business Setup in Dubai";
    lit "VAT Registration";
    lit "Employment Visa Requirements";
    lit "Golden Visa Eligibility";
    lit "Ejari Registration";
    lit "Trade License Renewal";
    lit "Bank Account Opening";
    lit "Document Attestation" ].

Definition languages : list jsstring :=
  [ lit "en"; lit "ar"; lit "hi"; lit "ur" ].

Definition chatRequest (r : State) : ChatRequest :=
  {| Body.message := inputMessage r;
     Body.aiProvider := selectedAI r;
     Body.language := selectedLanguage r;
     Body.context := slice (-5) (messages r) |}.

Definition chatFetch (r : State) : AsyncOp :=
  Fetch (lit "/api/chat")
    {| method := lit "POST";
       contentType := lit "application/json";
       body := chatRequest r |}.

Definition userMessage (r : State) (now ts : Z) : ChatMessage :=
  {| Msg.id := toString now;
     Msg.content := JStr (inputMessage r);
     Msg.sender := user;
     Msg.timestamp := ts;
     Msg.aiProvider := None;
     Msg.department := None |}.

Definition aiMessage (r : State) (now : Z) (reply : option json) (ts : Z)
    (dept : option json) : ChatMessage :=
  {| Msg.id := toString (now + 1);
     Msg.content := or_else reply (JStr fallbackReply);
     Msg.sender := ai;
     Msg.timestamp := ts;
     Msg.aiProvider := Some (selectedAI r);
     Msg.department := dept |}.

Definition errorMessage (r : State) (now ts : Z) : ChatMessage :=
  {| Msg.id := toString (now + 1);
     Msg.content := JStr errorReply;
     Msg.sender := ai;
     Msg.timestamp := ts;
     Msg.aiProvider := Some (selectedAI r);
     Msg.department := None |}.

(** The [try] block from [const aiMessage] on. The properties of the object
    literal are evaluated in source order: the clock for [id], then
    [data.response], then the clock for [timestamp], then
    [data.department]. *)
Definition received (r : State) (data : json) : Prog unit :=
  now ← dateNow;
  reply ← lift (getProp data (lit "response"));
  ts ← newDate;
  dept ← lift (getProp data (lit "department"));
  call (SetMessages (λ prev, prev ++ [aiMessage r now reply ts dept]));;
  call OnStatsUpdate.

(** The [catch] block. *)
Definition recover (r : State) (error : Error) : Prog unit :=
  call (ConsoleError error);;
  now ← dateNow;
  ts ← newDate;
  call (SetMessages (λ prev, prev ++ [errorMessage r now ts])).

(** [handleSendMessage], in the closure of the render whose state is [r]:
    [inputMessage], [messages], [selectedAI] and [selectedLanguage] are the
    values of that render, while the updater passed to [setMessages] gets
    the state current when it is applied. *)
Definition handleSendMessage (r : State) : Prog unit :=
  if negb (truthy (trim (inputMessage r))) then Ret tt
  else
    now ← dateNow;
    ts ← newDate;
    call (SetMessages (λ prev, prev ++ [userMessage r now ts]));;
    call (SetInputMessage []);;
    call (SetIsLoading true);;
    try_catch_finally
      (response ← await (chatFetch r);
       data ← await (ResponseJson response);
       received r data)
      (recover r)
      (call (SetIsLoading false)).

(** The handler from its first and from its second [await] on, given how
    the awaited promise settled. *)
Definition afterFetch (r : State) (res : Error + Response) : Prog unit :=
  try_catch_finally
    (response ← lift res;
     data ← await (ResponseJson response);
     received r data)
    (recover r)
    (call (SetIsLoading false)).

Definition afterJson (r : State) (res : Error + json) : Prog unit :=
  try_catch_finally
    (data ← lift res;
     received r data)
    (recover r)
    (call (SetIsLoading false)).

(** ** Running a handler

    A run goes on until the handler returns, throws, or reaches an [await];
    there it stops and leaves its continuation to be resumed when the promise
    settles. Every operation is recorded in order. *)

Definition apply (c : Call) (s : State) : State :=
  match c with
  | SetMessages f =>
      {| messages := f (messages s);
         inputMessage := inputMessage s;
         isLoading := isLoading s;
         selectedAI := selectedAI s;
         selectedLanguage := selectedLanguage s |}
  | SetInputMessage v =>
      {| messages := messages s;
         inputMessage := v;
         isLoading := isLoading s;
         selectedAI := selectedAI s;
         selectedLanguage := selectedLanguage s |}
  | SetIsLoading b =>
      {| messages := messages s;
         inputMessage := inputMessage s;
         isLoading := b;
         selectedAI := selectedAI s;
         selectedLanguage := selectedLanguage s |}
  | SetSelectedAI p =>
      {| messages := messages s;
         inputMessage := inputMessage s;
         isLoading := isLoading s;
         selectedAI := p;
         selectedLanguage := selectedLanguage s |}
  | SetSelectedLanguage l =>
      {| messages := messages s;
         inputMessage := inputMessage s;
         isLoading := isLoading s;
         selectedAI := selectedAI s;
         selectedLanguage := l |}
  | ConsoleError _ | OnStatsUpdate => s
  end.

Inductive Effect : Type :=
| Called (c : Call)
| Issued (op : AsyncOp).

Record Suspended : Type := mkSuspended {
  op : AsyncOp;
  resume : Error + answer op → Prog unit
}.

(** How a run ends: the handler's promise is fulfilled, it is rejected with
    the error that escaped, or the handler is suspended. *)
Inductive Outcome : Type :=
| Fulfilled
| Rejected (e : Error)
| Parked (p : Suspended).

Record Run : Type := mkRun {
  state : State;
  effects : list Effect;
  outcome : Outcome
}.

(** [clk i] is the [i]-th clock reading of the run. *)
Fixpoint exec (p : Prog unit) (clk : nat → Z) (i : nat)
    (s : State) (tr : list Effect) : Run :=
  match p with
  | Ret _ => mkRun s tr Fulfilled
  | Throw e => mkRun s tr (Rejected e)
  | Do c k => exec k clk i (apply c s) (tr ++ [Called c])
  | Clock k => exec (k (clk i)) clk (S i) s tr
  | Await o k => mkRun s (tr ++ [Issued o]) (Parked (mkSuspended o k))
  end.

(** ** The widget and its environment *)

Record World : Type := mkWorld {
  ui : State;
  pending : list Suspended;
  trace : list Effect;
  unhandled : list Error
}.

Definition initialWorld (t0 : Z) : World :=
  mkWorld (initialState t0) [] [] [].

(** How the environment settles a promise. *)
Inductive Settlement : Type :=
| Reject (e : Error)
| ResolveFetch (r : Response)
| ResolveJson (d : json).

Definition deliver (o : AsyncOp) (x : Settlement) : option (Error + answer o) :=
  match o return option (Error + answer o) with
  | Fetch _ _ =>
      match x with
      | Reject e => Some (inl e)
      | ResolveFetch r => Some (inr r)
      | ResolveJson _ => None
      end
  | ResponseJson _ =>
      match x with
      | Reject e => Some (inl e)
      | ResolveJson d => Some (inr d)
      | ResolveFetch _ => None
      end
  end.

Inductive Event : Type :=
| TypeInput (v : jsstring)
| PressEnter (clk : nat → Z)
| ClickSend (clk : nat → Z)
| ClickQuick (i : nat)
| ChooseAI (p : AIProvider)
| ChooseLanguage (l : jsstring)
| Settle (i : nat) (x : Settlement) (clk : nat → Z).

(** A call of [handleSendMessage] from the render of state [s], up to its
    first suspension. *)
Definition submitRun (s : State) (clk : nat → Z) (tr : list Effect) : Run :=
  exec (handleSendMessage s) clk 0 s tr.

(** Resuming a suspended handler in state [s] once its promise settles. *)
Definition settle (p : Suspended) (x : Settlement) (clk : nat → Z)
    (s : State) (tr : list Effect) : option Run :=
  r ← deliver (op p) x;
  Some (exec (resume p r) clk 0 s tr).

Definition parked (r : Run) : option Suspended :=
  match outcome r with
  | Parked p => Some p
  | Fulfilled | Rejected _ => None
  end.

(** The request body of the [fetch] a run is suspended on. *)
Definition issuedBody (r : Run) : option ChatRequest :=
  p ← parked r;
  match op p with
  | Fetch _ init => Some (body init)
  | ResponseJson _ => None
  end.

(** The outcome of a run, folded into the world: a suspended handler joins
    the pending ones, an escaped error is an unhandled rejection. *)
Definition commit (w : World) (others : list Suspended) (r : Run) : World :=
  match outcome r with
  | Fulfilled => mkWorld (state r) others (effects r) (unhandled w)
  | Rejected e => mkWorld (state r) others (effects r) (unhandled w ++ [e])
  | Parked p => mkWorld (state r) (others ++ [p]) (effects r) (unhandled w)
  end.

(** A call of [handleSendMessage]: the handler attached to the controls is
    the one of the latest render, whose state is the current one. *)
Definition invoke (w : World) (clk : nat → Z) : World :=
  commit w (pending w) (submitRun (ui w) clk (trace w)).

Definition setState (w : World) (c : Call) : World :=
  mkWorld (apply c (ui w)) (pending w) (trace w ++ [Called c]) (unhandled w).

(** One event; [None] when there is nothing to deliver it to (no such quick
    question, no such pending promise, a settlement of the wrong kind). *)
Definition step (w : World) (ev : Event) : option World :=
  match ev with
  | TypeInput v => Some (setState w (SetInputMessage v))
  | PressEnter clk | ClickSend clk => Some (invoke w clk)
  | ClickQuick i =>
      question ← quickActions !! i;
      Some (setState w (SetInputMessage question))
  | ChooseAI p => Some (setState w (SetSelectedAI p))
  | ChooseLanguage l => Some (setState w (SetSelectedLanguage l))
  | Settle i x clk =>
      p ← pending w !! i;
      r ← settle p x clk (ui w) (trace w);
      Some (commit w (delete i (pending w)) r)
  end.

(** The controls that the render of state [s] leaves enabled: the input and
    the send button are disabled while loading, the button also on blank
    input; the language select offers four values. *)
Definition enabled (s : State) (ev : Event) : bool :=
  match ev with
  | TypeInput _ | PressEnter _ => negb (isLoading s)
  | ClickSend _ => negb (negb (truthy (trim (inputMessage s))) || isLoading s)
  | ClickQuick _ | ChooseAI _ | Settle _ _ _ => true
  | ChooseLanguage l => existsb (JsString.eqb l) languages
  end.

Fixpoint steps (w : World) (evs : list Event) : option World :=
  match evs with
  | [] => Some w
  | ev :: evs' => w' ← step w ev; steps w' evs'
  end.

(** A run of events in which every user event comes from an enabled
    control. *)
Fixpoint usteps (w : World) (evs : list Event) : option World :=
  match evs with
  | [] => Some w
  | ev :: evs' =>
      if enabled (ui w) ev then w' ← step w ev; usteps w' evs' else None
  end.

(** ** Properties of runs and worlds *)

Definition isStatsUpdate (e : Effect) : bool :=
  match e with
  | Called OnStatsUpdate => true
  | _ => false
  end.

(** How often the [onStatsUpdate] prop was invoked in a trace. *)
Definition statsUpdates (tr : list Effect) : nat :=
  length (List.filter isStatsUpdate tr).

(** The run of a failed turn: caught, one assistant message with the fixed
    text appended to the conversation of the moment, [isLoading] cleared
    last, and [onStatsUpdate] not among the calls. *)
Definition FailedTurn (r : State) (e : Error) (s : State) (tr : list Effect)
    (R : Run) : Prop :=
  ∃ m f,
    outcome R = Fulfilled ∧
    messages (state R) = messages s ++ [m] ∧
    Msg.sender m = ai ∧
    Msg.content m = JStr errorReply ∧
    includes errorReply supportEmail = true ∧
    Msg.aiProvider m = Some (selectedAI r) ∧
    isLoading (state R) = false ∧
    statsUpdates (effects R) = statsUpdates tr ∧
    effects R =
      tr ++ [Called (ConsoleError e); Called (SetMessages f);
             Called (SetIsLoading false)].

(** The run of a turn that got a reply: one assistant message appended,
    the stats callback invoked, [isLoading] cleared last. *)
Definition AnsweredTurn (m : ChatMessage) (s : State) (tr : list Effect)
    (R : Run) : Prop :=
  ∃ f,
    outcome R = Fulfilled ∧
    messages (state R) = messages s ++ [m] ∧
    isLoading (state R) = false ∧
    statsUpdates (effects R) = S (statsUpdates tr) ∧
    effects R =
      tr ++ [Called (SetMessages f); Called OnStatsUpdate;
             Called (SetIsLoading false)].

(** [v === null] *)
Definition isNull (v : json) : bool :=
  match v with
  | JNull => true
  | JBool _ | JNum _ | JStr _ | JArr _ | JObj _ => false
  end.

(** A parsed body with an own property [key]. *)
Definition hasField (v : json) (key : jsstring) : bool :=
  match v with
  | JObj fields => match assoc key fields with Some _ => true | None => false end
  | JNull | JBool _ | JNum _ | JStr _ | JArr _ => false
  end.

(** The state and trace a caught failure leaves: [console.error], the error
    message appended, [isLoading] cleared. *)
Definition afterFailure (r : State) (e : Error) (now ts : Z)
    (s : State) (tr : list Effect) : Run :=
  mkRun
    (mkState (messages s ++ [errorMessage r now ts]) (inputMessage s) false
       (selectedAI s) (selectedLanguage s))
    (tr ++ [Called (ConsoleError e);
            Called (SetMessages (λ prev, prev ++ [errorMessage r now ts]));
            Called (SetIsLoading false)])
    Fulfilled.

(** ** One turn, run by run

    [s] is the state of the render the handler was called from; each later
    run starts from the state and the trace of its own moment. *)

(** The run after the [fetch] promise settled with [x]. *)
Definition fetchSettled (s : State) (clk : nat → Z) (tr : list Effect)
    (x : Settlement) (clk1 : nat → Z) (s1 : State) (tr1 : list Effect)
    : option Run :=
  p ← parked (submitRun s clk tr);
  settle p x clk1 s1 tr1.

(** The run after [fetch] resolved with [resp] and the promise of
    [resp.json()] settled with [x]. *)
Definition jsonSettled (s : State) (clk : nat → Z) (tr : list Effect)
    (resp : Response) (clk1 : nat → Z) (s1 : State) (tr1 : list Effect)
    (x : Settlement) (clk2 : nat → Z) (s2 : State) (tr2 : list Effect)
    : option Run :=
  R1 ← fetchSettled s clk tr (ResolveFetch resp) clk1 s1 tr1;
  p ← parked R1;
  settle p x clk2 s2 tr2.

(** A suspended call of [handleSendMessage] from some render [r], at its
    first or at its second [await]. *)
Definition TurnHandler (p : Suspended) : Prop :=
  ∃ r, p = mkSuspended (chatFetch r) (afterFetch r) ∨
       ∃ resp, p = mkSuspended (ResponseJson resp) (afterJson r).

(** A resumed run that stops at the next [await], the state untouched. *)
Definition Continued (s : State) (R : Run) : Prop :=
  ∃ p, outcome R = Parked p ∧ TurnHandler p ∧ state R = s.

(** A resumed run that ends the turn: one assistant message appended,
    [setIsLoading(false)] the last call made, no error escaping. *)
Definition Finished (s : State) (R : Run) : Prop :=
  outcome R = Fulfilled ∧
  (∃ m, messages (state R) = messages s ++ [m] ∧ Msg.sender m = ai) ∧
  isLoading (state R) = false ∧
  last (effects R) = Some (Called (SetIsLoading false)).

(** Some submission's request has not settled yet. *)
Definition awaiting (w : World) : bool :=
  match pending w with
  | [] => false
  | _ :: _ => true
  end.

(** The widget between turns ([isLoading] false, nothing pending) or within
    one (loading, one handler suspended). *)
Definition TurnInv (w : World) : Prop :=
  match pending w with
  | [] => isLoading (ui w) = false
  | [p] => isLoading (ui w) = true ∧ TurnHandler p
  | _ :: _ :: _ => False
  end.

(** ** Sample inputs *)

Definition sampleClock : nat → Z := λ i, 1757541048261 + Z.of_nat i.

(** The first render after typing [" hi"] and choosing Grok and Arabic. *)
Definition sampleState : State :=
  mkState (messages (initialState 1757541000000)) (lit " hi") false grok
    (lit "ar").

(** The same conversation with only blanks typed. *)
Definition blankState : State :=
  mkState (messages (initialState 1757541000000)) (lit "   ") false gpt
    (lit "en").

(** A later state of the widget: the user message is in, the provider was
    changed while the request was in flight. *)
Definition laterState : State :=
  mkState (messages sampleState ++ [userMessage sampleState 1757541048261 1757541048262])
    [] true deepseek (lit "ar").

Definition sampleReply : json :=
  JObj [ (lit "response", JStr (lit "X")); (lit "department", JStr (lit "Tax")) ].

(** The world after typing [" hi"] into the fresh widget, and the one after
    pressing Enter there. *)
Definition typedWorld : World :=
  setState (initialWorld 1757541000000) (SetInputMessage (lit " hi")).

Definition sentWorld : World := invoke typedWorld sampleClock.

(** A call of the [handleSendMessage] of the render of state [r] in a
    world whose state has moved on since that render; [invoke w] is
    [invokeFrom (ui w) w]. *)
Definition invokeFrom (r : State) (w : World) (clk : nat → Z) : World :=
  commit w (pending w) (exec (handleSendMessage r) clk 0 (ui w) (trace w)).

(** ** Key events and what the render shows *)

Record KeyboardEvent : Type := mkKey { key : jsstring; shiftKey : bool }.

(** The [onKeyPress] prop of the input:
    [e.key === "Enter" && handleSendMessage()]. *)
Definition onKeyPress (w : World) (e : KeyboardEvent) (clk : nat → Z) : World :=
  if JsString.eqb (key e) (lit "Enter") then invoke w clk else w.

(** [handleKeyPress], which the component declares and attaches to no
    control; the flag tells whether [preventDefault] was called. *)
Definition handleKeyPress (w : World) (e : KeyboardEvent) (clk : nat → Z)
    : bool * World :=
  if JsString.eqb (key e) (lit "Enter") && negb (shiftKey e)
  then (true, invoke w clk)
  else (false, w).

Record ProviderInfo : Type := mkInfo {
  name : jsstring;
  color : jsstring;
  icon : jsstring
}.

(** The [aiProviders] table; the icons are written as UTF-16 code units. *)
Definition aiProviders (p : AIProvider) : ProviderInfo :=
  match p with
  | gpt => mkInfo (lit "ChatGPT") (lit "bg-green-600") [0xD83E; 0xDD16]%N
  | grok => mkInfo (lit "Grok") (lit "bg-purple-600") [0x26A1]%N
  | deepseek => mkInfo (lit "DeepSeek") (lit "bg-blue-600") [0xD83D; 0xDD0D]%N
  end.

(** The provider name shown under a message:
    [message.aiProvider && aiProviders[message.aiProvider]?.name]. *)
Definition providerLabel (m : ChatMessage) : option jsstring :=
  p ← Msg.aiProvider m;
  Some (name (aiProviders p)).

(** The side of the row a message is drawn on. *)
Definition bubbleSide (m : ChatMessage) : jsstring :=
  match Msg.sender m with
  | user => lit "justify-end"
  | ai => lit "justify-start"
  end.

(** The [disabled] props of the input and of the send button, and the
    label of the button. *)
Definition inputDisabled (s : State) : bool := isLoading s.

Definition sendDisabled (s : State) : bool :=
  negb (truthy (trim (inputMessage s))) || isLoading s.

Definition sendLabel (s : State) : jsstring :=
  if isLoading s then lit "Sending..." else lit "Send".

(** ** Counting and shapes of transitions *)

Definition tally {A : Type} (f : A → bool) (l : list A) : nat :=
  length (List.filter f l).

Definition isFetchIssue (e : Effect) : bool :=
  match e with
  | Issued (Fetch _ _) => true
  | _ => false
  end.

Definition isConsoleError (e : Effect) : bool :=
  match e with
  | Called (ConsoleError _) => true
  | _ => false
  end.

Definition fromUser (m : ChatMessage) : bool :=
  match Msg.sender m with user => true | ai => false end.

Definition fromAssistant (m : ChatMessage) : bool :=
  match Msg.sender m with user => false | ai => true end.

(** No two neighbours are from the same sender. *)
Fixpoint alternating (l : list ChatMessage) : bool :=
  match l with
  | a :: (b :: _) as rest =>
      negb (Bool.eqb (fromUser a) (fromUser b)) && alternating rest
  | _ => true
  end.

(** The state and trace an answered turn leaves. *)
Definition afterReply (r : State) (now : Z) (reply : option json) (ts : Z)
    (dept : option json) (s : State) (tr : list Effect) : Run :=
  mkRun
    (mkState (messages s ++ [aiMessage r now reply ts dept]) (inputMessage s)
       false (selectedAI s) (selectedLanguage s))
    (tr ++ [Called (SetMessages (λ prev, prev ++ [aiMessage r now reply ts dept]));
            Called OnStatsUpdate;
            Called (SetIsLoading false)])
    Fulfilled.

(** The setters that the controls other than the send ones call. *)
Definition quietCall (c : Call) : bool :=
  match c with
  | SetInputMessage _ | SetSelectedAI _ | SetSelectedLanguage _ => true
  | SetMessages _ | SetIsLoading _ | ConsoleError _ | OnStatsUpdate => false
  end.

(** What a settlement does to the world: it moves the handler to its
    second [await], or ends its turn with a reply or with the failure
    message. *)
Inductive Settled (w w' : World) : Prop :=
| settled_continue i r resp :
    pending w !! i = Some (mkSuspended (chatFetch r) (afterFetch r)) →
    w' = mkWorld (ui w)
           (delete i (pending w) ++ [mkSuspended (ResponseJson resp) (afterJson r)])
           (trace w ++ [Issued (ResponseJson resp)])
           (unhandled w) →
    Settled w w'
| settled_reply i p r now reply ts dept :
    pending w !! i = Some p →
    w' = mkWorld (state (afterReply r now reply ts dept (ui w) (trace w)))
           (delete i (pending w))
           (effects (afterReply r now reply ts dept (ui w) (trace w)))
           (unhandled w) →
    Settled w w'
| settled_fail i p r e now ts :
    pending w !! i = Some p →
    w' = mkWorld (state (afterFailure r e now ts (ui w) (trace w)))
           (delete i (pending w))
           (effects (afterFailure r e now ts (ui w) (trace w)))
           (unhandled w) →
    Settled w w'.

(** What one event does to the world. *)
Inductive Transition (w w' : World) : Prop :=
| trans_same : w' = w → Transition w w'
| trans_set c : quietCall c = true → w' = setState w c → Transition w w'
| trans_submit clk :
    truthy (trim (inputMessage (ui w))) = true →
    w' = mkWorld
           (mkState
              (messages (ui w) ++ [userMessage (ui w) (clk 0%nat) (clk 1%nat)])
              [] true (selectedAI (ui w)) (selectedLanguage (ui w)))
           (pending w ++ [mkSuspended (chatFetch (ui w)) (afterFetch (ui w))])
           (trace w ++
              [Called (SetMessages
                         (λ prev, prev ++ [userMessage (ui w) (clk 0%nat) (clk 1%nat)]));
               Called (SetInputMessage []);
               Called (SetIsLoading true);
               Issued (chatFetch (ui w))])
           (unhandled w) →
    Transition w w'
| trans_settled : Settled w w' → Transition w w'.

(** The books of the widget: no error has escaped a handler; every user
    message stands for one request; every assistant message after the
    greeting stands for one stats update or one logged error; every request
    is pending, answered or failed. *)
Definition Balanced (w : World) : Prop :=
  unhandled w = [] ∧
  tally fromUser (messages (ui w)) = tally isFetchIssue (trace w) ∧
  tally fromAssistant (messages (ui w))
    = S (statsUpdates (trace w) + tally isConsoleError (trace w)) ∧
  tally isFetchIssue (trace w)
    = (length (pending w) + statsUpdates (trace w)
       + tally isConsoleError (trace w))%nat.

(** Assistant and user messages as the handlers build them: the former
    carry a provider, the latter neither provider nor department. *)
Definition Tagged (m : ChatMessage) : Prop :=
  match Msg.sender m with
  | ai => is_Some (Msg.aiProvider m)
  | user => Msg.aiProvider m = None ∧ Msg.department m = None
  end.

(** Turns follow one another: the conversation alternates between the two
    senders, and it ends on a user message exactly while a request is
    pending. *)
Definition InTurns (w : World) : Prop :=
  TurnInv w ∧
  alternating (messages (ui w)) = true ∧
  (fromUser <$> last (messages (ui w))) = Some (awaiting w) ∧
  Nat.odd (length (messages (ui w))) = negb (awaiting w).

(** A conversation of six messages, a blank input, and an idle world on
    it. *)
Definition longState : State :=
  mkState
    (messages laterState ++
       [ errorMessage sampleState 1 2; userMessage sampleState 3 4;
         errorMessage sampleState 5 6; userMessage sampleState 7 8 ])
    (lit "VAT") false grok (lit "hi").

(** The world with a request in flight and a quick question filled in
    meanwhile, and the one after that request was rejected. *)
Definition filledWorld : World :=
  setState sentWorld (SetInputMessage (lit "VAT Registration")).

Definition rejectedWorld : World :=
  match step filledWorld (Settle 0 (Reject TypeError) sampleClock) with
  | Some w => w
  | None => filledWorld
  end.

(** The values the language select offers. *)
Definition offered (l : jsstring) : bool := existsb (JsString.eqb l) languages.

(** A request as the widget is meant to send it: a POST of JSON to the
    chat endpoint, with a text that is not blank, a language the select
    offers and a context of five messages at most. *)
Definition WellFormed (e : Effect) : Prop :=
  match e with
  | Issued (Fetch url init) =>
      url = lit "/api/chat" ∧
      method init = lit "POST" ∧
      contentType init = lit "application/json" ∧
      truthy (trim (Body.message (body init))) = true ∧
      offered (Body.language (body init)) = true ∧
      (length (Body.context (body init)) ≤ 5)%nat
  | Issued (ResponseJson _) | Called _ => True
  end.

(** * Properties *)

#[local] Arguments lit : simpl never.
#[local] Arguments toString : simpl never.

(** ** Strings and arrays *)

Lemma jsstring_eqb_eq (s t : jsstring) : JsString.eqb s t = true ↔ s = t.
Proof.
  revert t; induction s as [|c s IH]; intros [|d t]; simpl; try easy.
  rewrite andb_true_iff, N.eqb_eq, IH. split.
  - intros [-> ->]; reflexivity.
  - intros [= -> ->]; auto.
Qed.

Lemma trimStart_all_ws (s : jsstring) :
  forallb isWhiteSpace s = true → trimStart s = [].
Proof.
  induction s as [|c s IH]; simpl; [reflexivity|].
  intros [Hc Hs]%andb_true_iff. rewrite Hc. auto.
Qed.

Lemma trimStart_nil_all_ws (s : jsstring) :
  trimStart s = [] → forallb isWhiteSpace s = true.
Proof.
  induction s as [|c s IH]; simpl; [reflexivity|].
  destruct (isWhiteSpace c); [auto | discriminate].
Qed.

Lemma trimStart_head (s : jsstring) c s' :
  trimStart s = c :: s' → isWhiteSpace c = false.
Proof.
  induction s as [|d s IH]; simpl; [discriminate|].
  destruct (isWhiteSpace d) eqn:Hd; [exact IH|].
  intros [= -> _]. exact Hd.
Qed.

Lemma forallb_rev {A} (f : A → bool) (l : list A) :
  forallb f (rev l) = forallb f l.
Proof.
  induction l as [|x l IH]; simpl; [reflexivity|].
  rewrite forallb_app, IH. simpl. rewrite andb_true_r. apply andb_comm.
Qed.

(** [trim] yields the empty string exactly on the strings made of white
    space only (the empty one included). *)
Lemma trim_nil_iff (s : jsstring) :
  trim s = [] ↔ forallb isWhiteSpace s = true.
Proof.
  unfold trim, trimEnd. split.
  - intros H. apply trimStart_nil_all_ws.
    destruct (trimStart s) as [|c s'] eqn:E; [reflexivity|].
    apply trimStart_head in E as Hc.
    apply (f_equal (@rev N)) in H. rewrite rev_involutive in H.
    apply trimStart_nil_all_ws in H. rewrite forallb_rev in H.
    simpl in H. rewrite Hc in H. discriminate.
  - intros H. rewrite (trimStart_all_ws _ H). reflexivity.
Qed.

Lemma truthy_trim_iff (v : jsstring) :
  truthy (trim v) = false ↔ forallb isWhiteSpace v = true.
Proof.
  rewrite <- trim_nil_iff. destruct (trim v); simpl; split; congruence.
Qed.

Lemma slice_suffix {A : Type} (start : Z) (l : list A) :
  slice start l `suffix_of` l.
Proof. unfold slice. eexists. symmetry. apply take_drop. Qed.

Lemma slice_last_length {A : Type} (n : nat) (l : list A) :
  (0 < n)%nat → (length (slice (- Z.of_nat n) l) ≤ n)%nat.
Proof.
  intros Hn. unfold slice. cbv zeta. rewrite length_drop.
  destruct (Z.ltb_spec (- Z.of_nat n) 0) as [E|E]; lia.
Qed.

(** The last [n] elements, all of them when there are fewer. *)
Lemma slice_last_short {A : Type} (n : nat) (l : list A) :
  (0 < n)%nat → (length l ≤ n)%nat → slice (- Z.of_nat n) l = l.
Proof.
  intros Hn Hl. unfold slice. cbv zeta.
  replace (- Z.of_nat n <? 0) with true by (symmetry; apply Z.ltb_lt; lia).
  rewrite Z.max_r by lia. reflexivity.
Qed.

(** ** The runs of [handleSendMessage] *)

Lemma submitRun_blank (s : State) (clk : nat → Z) (tr : list Effect) :
  truthy (trim (inputMessage s)) = false →
  submitRun s clk tr = mkRun s tr Fulfilled.
Proof.
  intros H. unfold submitRun, handleSendMessage. rewrite H. reflexivity.
Qed.

Lemma submitRun_nonblank (s : State) (clk : nat → Z) (tr : list Effect) :
  truthy (trim (inputMessage s)) = true →
  submitRun s clk tr =
    mkRun
      (mkState (messages s ++ [userMessage s (clk 0%nat) (clk 1%nat)]) [] true
         (selectedAI s) (selectedLanguage s))
      (tr ++ [Called (SetMessages
                        (λ prev, prev ++ [userMessage s (clk 0%nat) (clk 1%nat)]));
              Called (SetInputMessage []);
              Called (SetIsLoading true);
              Issued (chatFetch s)])
      (Parked (mkSuspended (chatFetch s) (afterFetch s))).
Proof.
  intros H. unfold submitRun, handleSendMessage.
  rewrite H. cbn.
  rewrite <- !app_assoc. reflexivity.
Qed.

Lemma exec_afterFetch_reject (r : State) (e : Error) clk i s tr :
  exec (afterFetch r (inl e)) clk i s tr =
    afterFailure r e (clk i) (clk (S i)) s tr.
Proof.
  unfold afterFailure. cbn. rewrite <- !app_assoc. reflexivity.
Qed.

Lemma exec_afterFetch_resolve (r : State) (resp : Response) clk i s tr :
  exec (afterFetch r (inr resp)) clk i s tr =
    mkRun s (tr ++ [Issued (ResponseJson resp)])
      (Parked (mkSuspended (ResponseJson resp) (afterJson r))).
Proof. reflexivity. Qed.

Lemma exec_afterJson_reject (r : State) (e : Error) clk i s tr :
  exec (afterJson r (inl e)) clk i s tr =
    afterFailure r e (clk i) (clk (S i)) s tr.
Proof.
  unfold afterFailure. cbn. rewrite <- !app_assoc. reflexivity.
Qed.

(** Reading [data.response] of a [null] body throws after the clock was read
    for [id]: the [catch] block reads the clock anew. *)
Lemma exec_afterJson_null (r : State) clk i s tr :
  exec (afterJson r (inr JNull)) clk i s tr =
    afterFailure r TypeError (clk (S i)) (clk (S (S i))) s tr.
Proof.
  unfold afterFailure. cbn. rewrite <- !app_assoc. reflexivity.
Qed.

Lemma exec_afterJson_data (r : State) (data : json) reply dept clk i s tr :
  getProp data (lit "response") = inr reply →
  getProp data (lit "department") = inr dept →
  exec (afterJson r (inr data)) clk i s tr =
    mkRun
      (mkState (messages s ++ [aiMessage r (clk i) reply (clk (S i)) dept])
         (inputMessage s) false (selectedAI s) (selectedLanguage s))
      (tr ++ [Called (SetMessages
                        (λ prev, prev ++ [aiMessage r (clk i) reply (clk (S i)) dept]));
              Called OnStatsUpdate;
              Called (SetIsLoading false)])
      Fulfilled.
Proof.
  intros Hr Hd. unfold afterJson, received, try_catch_finally. cbn.
  rewrite Hr. cbn. rewrite Hd. cbn. rewrite <- !app_assoc. reflexivity.
Qed.

Lemma getProp_nonnull (data : json) (key : jsstring) :
  isNull data = false → ∃ v, getProp data key = inr v.
Proof. destruct data; intros H; [discriminate | eexists; reflexivity ..]. Qed.

Lemma getProp_missing (data : json) (key : jsstring) :
  isNull data = false → hasField data key = false →
  getProp data key = inr None.
Proof.
  destruct data; intros Hn Hf; try discriminate; try reflexivity.
  simpl in *. destruct (assoc key fields); [discriminate | reflexivity].
Qed.

Lemma statsUpdates_app (tr tr' : list Effect) :
  statsUpdates (tr ++ tr') = (statsUpdates tr + statsUpdates tr')%nat.
Proof. unfold statsUpdates. rewrite List.filter_app. apply length_app. Qed.

Lemma support_email_in_errorReply : includes errorReply supportEmail = true.
Proof. vm_compute. reflexivity. Qed.

Lemma afterFailure_failed (r : State) (e : Error) (now ts : Z)
    (s : State) (tr : list Effect) :
  FailedTurn r e s tr (afterFailure r e now ts s tr).
Proof.
  exists (errorMessage r now ts), (λ prev, prev ++ [errorMessage r now ts]).
  unfold afterFailure. simpl.
  repeat split; try reflexivity; try apply support_email_in_errorReply.
  rewrite statsUpdates_app. unfold statsUpdates at 2. simpl. lia.
Qed.

Lemma fetchSettled_reject s clk tr e clk1 s1 tr1 :
  truthy (trim (inputMessage s)) = true →
  fetchSettled s clk tr (Reject e) clk1 s1 tr1 =
    Some (afterFailure s e (clk1 0%nat) (clk1 1%nat) s1 tr1).
Proof.
  intros H. unfold fetchSettled. rewrite (submitRun_nonblank s clk tr H).
  unfold parked, settle. simpl. f_equal. apply exec_afterFetch_reject.
Qed.

Lemma fetchSettled_resolve s clk tr resp clk1 s1 tr1 :
  truthy (trim (inputMessage s)) = true →
  fetchSettled s clk tr (ResolveFetch resp) clk1 s1 tr1 =
    Some (mkRun s1 (tr1 ++ [Issued (ResponseJson resp)])
            (Parked (mkSuspended (ResponseJson resp) (afterJson s)))).
Proof.
  intros H. unfold fetchSettled. rewrite (submitRun_nonblank s clk tr H).
  reflexivity.
Qed.

Lemma jsonSettled_reject s clk tr resp clk1 s1 tr1 e clk2 s2 tr2 :
  truthy (trim (inputMessage s)) = true →
  jsonSettled s clk tr resp clk1 s1 tr1 (Reject e) clk2 s2 tr2 =
    Some (afterFailure s e (clk2 0%nat) (clk2 1%nat) s2 tr2).
Proof.
  intros H. unfold jsonSettled.
  rewrite (fetchSettled_resolve s clk tr resp clk1 s1 tr1 H).
  unfold parked, settle. simpl. f_equal. apply exec_afterJson_reject.
Qed.

Lemma jsonSettled_resolve s clk tr resp clk1 s1 tr1 data clk2 s2 tr2 :
  truthy (trim (inputMessage s)) = true →
  jsonSettled s clk tr resp clk1 s1 tr1 (ResolveJson data) clk2 s2 tr2 =
    Some (exec (afterJson s (inr data)) clk2 0 s2 tr2).
Proof.
  intros H. unfold jsonSettled.
  rewrite (fetchSettled_resolve s clk tr resp clk1 s1 tr1 H).
  reflexivity.
Qed.

Lemma answered (r : State) (data : json) reply dept clk s tr :
  getProp data (lit "response") = inr reply →
  getProp data (lit "department") = inr dept →
  AnsweredTurn (aiMessage r (clk 0%nat) reply (clk 1%nat) dept) s tr
    (exec (afterJson r (inr data)) clk 0 s tr).
Proof.
  intros Hr Hd. rewrite (exec_afterJson_data r data reply dept clk 0 s tr Hr Hd).
  eexists. simpl. repeat split; try reflexivity.
  rewrite statsUpdates_app. unfold statsUpdates at 2. simpl. lia.
Qed.

(** ** A turn that gets a reply *)

(** C1. When the request of a submission made from state [s] resolves and its
    body parses to an object with [response] "X" and [department] "Tax", the
    handler appends one assistant message with content "X", department
    "Tax" and the provider selected in [s], whatever the state has become
    by the time of the reply. *)
Theorem reply_message_tagged (s : State) clk tr resp clk1 s1 tr1
    (fields : list (jsstring * json)) clk2 s2 tr2 :
  truthy (trim (inputMessage s)) = true →
  assoc (lit "response") fields = Some (JStr (lit "X")) →
  assoc (lit "department") fields = Some (JStr (lit "Tax")) →
  ∃ R m,
    jsonSettled s clk tr resp clk1 s1 tr1 (ResolveJson (JObj fields)) clk2 s2 tr2
      = Some R ∧
    AnsweredTurn m s2 tr2 R ∧
    Msg.sender m = ai ∧
    Msg.content m = JStr (lit "X") ∧
    Msg.department m = Some (JStr (lit "Tax")) ∧
    Msg.aiProvider m = Some (selectedAI s).
Proof.
  intros Hs Hr Hd.
  rewrite (jsonSettled_resolve s clk tr resp clk1 s1 tr1 _ clk2 s2 tr2 Hs).
  eexists. eexists. split; [reflexivity|]. split.
  - apply answered; simpl; [rewrite Hr | rewrite Hd]; reflexivity.
  - repeat split; reflexivity.
Qed.

Lemma reply_message_tagged_witness :
  ∃ R m,
    jsonSettled sampleState sampleClock [] (mkResponse 200)
      sampleClock laterState [] (ResolveJson sampleReply)
      sampleClock laterState [] = Some R ∧
    AnsweredTurn m laterState [] R ∧
    Msg.sender m = ai ∧
    Msg.content m = JStr (lit "X") ∧
    Msg.department m = Some (JStr (lit "Tax")) ∧
    Msg.aiProvider m = Some (selectedAI sampleState).
Proof.
  apply (reply_message_tagged sampleState sampleClock [] (mkResponse 200)
           sampleClock laterState []
           [ (lit "response", JStr (lit "X"));
             (lit "department", JStr (lit "Tax")) ]
           sampleClock laterState []); reflexivity.
Defined.

(** X2. Any truthy [response] is stored as it is, any [department] likewise. *)
Lemma reply_message_general (s : State) clk tr resp clk1 s1 tr1
    (data v : json) dept clk2 s2 tr2 :
  truthy (trim (inputMessage s)) = true →
  getProp data (lit "response") = inr (Some v) →
  json_truthy v = true →
  getProp data (lit "department") = inr dept →
  ∃ R m,
    jsonSettled s clk tr resp clk1 s1 tr1 (ResolveJson data) clk2 s2 tr2
      = Some R ∧
    AnsweredTurn m s2 tr2 R ∧
    Msg.content m = v ∧
    Msg.department m = dept ∧
    Msg.aiProvider m = Some (selectedAI s).
Proof.
  intros Hs Hr Hv Hd.
  rewrite (jsonSettled_resolve s clk tr resp clk1 s1 tr1 _ clk2 s2 tr2 Hs).
  eexists. eexists. split; [reflexivity|]. split.
  - apply (answered s data (Some v) dept); assumption.
  - simpl. rewrite Hv. repeat split; reflexivity.
Qed.

(** ** A turn that fails *)

(** C2. When the request of a submission fails, be it that [fetch] rejects
    or that reading the body as JSON rejects, the error is caught (the
    handler's promise is fulfilled), exactly one assistant message is
    appended, its text contains the support address, [onStatsUpdate] is
    invoked in no run of the turn, and [isLoading] ends false. *)
Theorem failed_turn_recovers (s : State) clk tr (e : Error) :
  truthy (trim (inputMessage s)) = true →
  statsUpdates (effects (submitRun s clk tr)) = statsUpdates tr ∧
  (∀ clk1 s1 tr1, ∃ R,
     fetchSettled s clk tr (Reject e) clk1 s1 tr1 = Some R ∧
     FailedTurn s e s1 tr1 R) ∧
  (∀ resp clk1 s1 tr1 clk2 s2 tr2, ∃ R1 R,
     fetchSettled s clk tr (ResolveFetch resp) clk1 s1 tr1 = Some R1 ∧
     state R1 = s1 ∧
     statsUpdates (effects R1) = statsUpdates tr1 ∧
     jsonSettled s clk tr resp clk1 s1 tr1 (Reject e) clk2 s2 tr2 = Some R ∧
     FailedTurn s e s2 tr2 R).
Proof.
  intros Hs. split; [|split].
  - rewrite (submitRun_nonblank s clk tr Hs). simpl.
    rewrite statsUpdates_app. unfold statsUpdates at 2. simpl. lia.
  - intros. eexists. split; [apply fetchSettled_reject; exact Hs|].
    apply afterFailure_failed.
  - intros. eexists. eexists.
    split; [apply fetchSettled_resolve; exact Hs|].
    split; [reflexivity|]. split.
    { simpl. rewrite statsUpdates_app. unfold statsUpdates at 2. simpl. lia. }
    split; [apply jsonSettled_reject; exact Hs|].
    apply afterFailure_failed.
Qed.

Lemma failed_turn_recovers_witness :
  statsUpdates (effects (submitRun sampleState sampleClock [])) = statsUpdates [] ∧
  (∀ clk1 s1 tr1, ∃ R,
     fetchSettled sampleState sampleClock [] (Reject TypeError) clk1 s1 tr1
       = Some R ∧
     FailedTurn sampleState TypeError s1 tr1 R) ∧
  (∀ resp clk1 s1 tr1 clk2 s2 tr2, ∃ R1 R,
     fetchSettled sampleState sampleClock [] (ResolveFetch resp) clk1 s1 tr1
       = Some R1 ∧
     state R1 = s1 ∧
     statsUpdates (effects R1) = statsUpdates tr1 ∧
     jsonSettled sampleState sampleClock [] resp clk1 s1 tr1
       (Reject TypeError) clk2 s2 tr2 = Some R ∧
     FailedTurn sampleState TypeError s2 tr2 R).
Proof.
  apply (failed_turn_recovers sampleState sampleClock [] TypeError).
  reflexivity.
Defined.

(** ** A blank submission *)

(** C3. Sending input that is empty or made of white space only changes
    nothing: the conversation and [isLoading] are as before, no handler is
    suspended and nothing, a [fetch] included, is added to the trace. *)
Theorem blank_submit_noop (w : World) (clk : nat → Z) :
  forallb isWhiteSpace (inputMessage (ui w)) = true →
  step w (PressEnter clk) = Some w ∧ step w (ClickSend clk) = Some w.
Proof.
  intros H%truthy_trim_iff.
  assert (E : invoke w clk = w).
  { unfold invoke. rewrite (submitRun_blank _ clk _ H).
    destruct w; reflexivity. }
  simpl. rewrite E. split; reflexivity.
Qed.

Lemma blank_submit_noop_witness :
  step (mkWorld blankState [] [] []) (PressEnter sampleClock)
    = Some (mkWorld blankState [] [] []) ∧
  step (mkWorld blankState [] [] []) (ClickSend sampleClock)
    = Some (mkWorld blankState [] [] []).
Proof.
  apply (blank_submit_noop (mkWorld blankState [] [] []) sampleClock).
  reflexivity.
Defined.

(** ** The request *)

Lemma issuedBody_submit (s : State) clk tr :
  truthy (trim (inputMessage s)) = true →
  issuedBody (submitRun s clk tr) = Some (chatRequest s).
Proof. intros H. rewrite (submitRun_nonblank s clk tr H). reflexivity. Qed.

(** C5. The context of the request has at most five messages, and they are
    a contiguous final segment of the conversation of the render, in the
    order of the conversation. *)
Theorem context_bounded_in_order (s : State) clk tr :
  truthy (trim (inputMessage s)) = true →
  ∃ req,
    issuedBody (submitRun s clk tr) = Some req ∧
    (length (Body.context req) ≤ 5)%nat ∧
    Body.context req `suffix_of` messages s ∧
    Body.context req `sublist_of` messages s.
Proof.
  intros H. exists (chatRequest s).
  split; [apply issuedBody_submit; exact H|]. simpl.
  split; [apply (slice_last_length 5); lia|].
  split; [apply slice_suffix|].
  destruct (slice_suffix (-5) (messages s)) as [pre E].
  rewrite E at 2. apply sublist_inserts_l. reflexivity.
Qed.

Lemma context_bounded_in_order_witness :
  ∃ req,
    issuedBody (submitRun sampleState sampleClock []) = Some req ∧
    (length (Body.context req) ≤ 5)%nat ∧
    Body.context req `suffix_of` messages sampleState ∧
    Body.context req `sublist_of` messages sampleState.
Proof.
  apply (context_bounded_in_order sampleState sampleClock []). reflexivity.
Defined.

(** The request carries the text of the input box as it is: leading and
    trailing blanks are not removed. *)
Lemma request_message_untrimmed :
  ∃ req,
    issuedBody (submitRun sampleState sampleClock []) = Some req ∧
    Body.message req = lit " hi" ∧
    trim (inputMessage sampleState) = lit "hi" ∧
    Body.message req ≠ trim (inputMessage sampleState).
Proof.
  exists (chatRequest sampleState).
  split; [reflexivity|]. split; [reflexivity|]. split; [reflexivity|].
  vm_compute. discriminate.
Qed.

(** C8, amended. The request of a non-blank submission carries the input
    text as entered, the selected provider and the selected language. *)
Theorem request_carries_input (s : State) clk tr :
  truthy (trim (inputMessage s)) = true →
  ∃ req,
    issuedBody (submitRun s clk tr) = Some req ∧
    Body.message req = inputMessage s ∧
    Body.aiProvider req = selectedAI s ∧
    Body.language req = selectedLanguage s.
Proof.
  intros H. exists (chatRequest s).
  split; [apply issuedBody_submit; exact H|]. repeat split.
Qed.

Lemma request_carries_input_witness :
  ∃ req,
    issuedBody (submitRun sampleState sampleClock []) = Some req ∧
    Body.message req = inputMessage sampleState ∧
    Body.aiProvider req = selectedAI sampleState ∧
    Body.language req = selectedLanguage sampleState.
Proof.
  apply (request_carries_input sampleState sampleClock []). reflexivity.
Defined.

(** C10. The context is cut from the conversation of the render, to which
    the submission then appends its user message: every message of the
    context sits in the new conversation at an index below that of the user
    message. *)
Theorem context_precedes_user_message (s : State) clk tr :
  truthy (trim (inputMessage s)) = true →
  ∃ req u,
    issuedBody (submitRun s clk tr) = Some req ∧
    Body.context req = slice (-5) (messages s) ∧
    messages (state (submitRun s clk tr)) = messages s ++ [u] ∧
    Msg.sender u = user ∧
    messages (state (submitRun s clk tr)) !! length (messages s) = Some u ∧
    ∀ i m, Body.context req !! i = Some m →
      ∃ j, (j < length (messages s))%nat ∧
           messages (state (submitRun s clk tr)) !! j = Some m.
Proof.
  intros H. exists (chatRequest s), (userMessage s (clk 0%nat) (clk 1%nat)).
  split; [apply issuedBody_submit; exact H|].
  rewrite (submitRun_nonblank s clk tr H). simpl.
  split; [reflexivity|]. split; [reflexivity|]. split; [reflexivity|].
  split; [apply list_lookup_middle; reflexivity|].
  intros i m Hi.
  destruct (slice_suffix (-5) (messages s)) as [pre E].
  exists (length pre + i)%nat.
  assert (Hin : messages s !! (length pre + i)%nat = Some m).
  { rewrite E at 1. rewrite lookup_app_r by lia.
    replace (length pre + i - length pre)%nat with i by lia. exact Hi. }
  split; [eapply lookup_lt_Some; exact Hin|].
  apply lookup_app_l_Some. exact Hin.
Qed.

Lemma context_precedes_user_message_witness :
  ∃ req u,
    issuedBody (submitRun sampleState sampleClock []) = Some req ∧
    Body.context req = slice (-5) (messages sampleState) ∧
    messages (state (submitRun sampleState sampleClock []))
      = messages sampleState ++ [u] ∧
    Msg.sender u = user ∧
    messages (state (submitRun sampleState sampleClock []))
      !! length (messages sampleState) = Some u ∧
    ∀ i m, Body.context req !! i = Some m →
      ∃ j, (j < length (messages sampleState))%nat ∧
           messages (state (submitRun sampleState sampleClock [])) !! j = Some m.
Proof.
  apply (context_precedes_user_message sampleState sampleClock []).
  reflexivity.
Defined.

(** ** A reply without [response] *)

(** A [null] body has no [response] property, yet reading the property
    throws: the turn ends on the failure text, not on the fallback. *)
Lemma null_body_not_fallback :
  hasField JNull (lit "response") = false ∧
  ∃ R m,
    jsonSettled sampleState sampleClock [] (mkResponse 200)
      sampleClock laterState [] (ResolveJson JNull)
      sampleClock laterState [] = Some R ∧
    messages (state R) = messages laterState ++ [m] ∧
    Msg.content m = JStr errorReply ∧
    Msg.content m ≠ JStr fallbackReply.
Proof.
  split; [reflexivity|].
  eexists. eexists.
  split; [apply jsonSettled_resolve; reflexivity|].
  rewrite exec_afterJson_null. simpl.
  split; [reflexivity|]. split; [reflexivity|].
  vm_compute. discriminate.
Qed.

(** C7, amended. When the body parses to a value other than [null] that has
    no [response] property, the assistant message appended has the fallback
    text as content. *)
Theorem missing_response_fallback (s : State) clk tr resp clk1 s1 tr1
    (data : json) clk2 s2 tr2 :
  truthy (trim (inputMessage s)) = true →
  isNull data = false →
  hasField data (lit "response") = false →
  ∃ R m,
    jsonSettled s clk tr resp clk1 s1 tr1 (ResolveJson data) clk2 s2 tr2
      = Some R ∧
    AnsweredTurn m s2 tr2 R ∧
    Msg.sender m = ai ∧
    Msg.content m = JStr fallbackReply.
Proof.
  intros Hs Hn Hf.
  rewrite (jsonSettled_resolve s clk tr resp clk1 s1 tr1 _ clk2 s2 tr2 Hs).
  destruct (getProp_nonnull data (lit "department") Hn) as [dept Hd].
  eexists. eexists. split; [reflexivity|]. split.
  - apply (answered s data None dept);
      [apply getProp_missing; assumption | exact Hd].
  - split; reflexivity.
Qed.

Lemma missing_response_fallback_witness :
  ∃ R m,
    jsonSettled sampleState sampleClock [] (mkResponse 500)
      sampleClock laterState []
      (ResolveJson (JObj [ (lit "error", JStr (lit "boom")) ]))
      sampleClock laterState [] = Some R ∧
    AnsweredTurn m laterState [] R ∧
    Msg.sender m = ai ∧
    Msg.content m = JStr fallbackReply.
Proof.
  apply (missing_response_fallback sampleState sampleClock [] (mkResponse 500)
           sampleClock laterState []
           (JObj [ (lit "error", JStr (lit "boom")) ])
           sampleClock laterState []);
    reflexivity.
Defined.

(** ** The widget over time *)

Lemma last_snoc3 {A : Type} (l : list A) (a b c : A) :
  last (l ++ [a; b; c]) = Some c.
Proof.
  change [a; b; c] with ([a; b] ++ [c]). rewrite app_assoc. apply last_snoc.
Qed.

Lemma afterFailure_finished r e now ts s tr :
  Finished s (afterFailure r e now ts s tr).
Proof.
  unfold Finished, afterFailure. simpl.
  split; [reflexivity|]. split; [eexists; split; reflexivity|].
  split; [reflexivity | apply last_snoc3].
Qed.

Lemma afterJson_finished r data clk s tr :
  Finished s (exec (afterJson r (inr data)) clk 0 s tr).
Proof.
  destruct (isNull data) eqn:Hn.
  - destruct data; try discriminate.
    rewrite exec_afterJson_null. apply afterFailure_finished.
  - destruct (getProp_nonnull data (lit "response") Hn) as [reply Hr].
    destruct (getProp_nonnull data (lit "department") Hn) as [dept Hd].
    rewrite (exec_afterJson_data r data reply dept clk 0 s tr Hr Hd).
    unfold Finished. simpl.
    split; [reflexivity|]. split; [eexists; split; reflexivity|].
    split; [reflexivity | apply last_snoc3].
Qed.

(** Resuming a suspended handler: the resolution of [fetch] leads to the
    second [await]; every other settlement ends the turn. *)
Lemma settle_turn (p : Suspended) (x : Settlement) clk s tr R :
  TurnHandler p →
  settle p x clk s tr = Some R →
  match x with
  | ResolveFetch _ => Continued s R
  | Reject _ | ResolveJson _ => Finished s R
  end.
Proof.
  intros [r [-> | [resp ->]]] H; destruct x as [e | resp' | data];
    try (cbv in H; discriminate H).
  - change (Some (exec (afterFetch r (inl e)) clk 0 s tr) = Some R) in H.
    apply (inj Some) in H. subst R.
    rewrite exec_afterFetch_reject. apply afterFailure_finished.
  - change (Some (exec (afterFetch r (inr resp')) clk 0 s tr) = Some R) in H.
    apply (inj Some) in H. subst R.
    rewrite exec_afterFetch_resolve. eexists. simpl.
    split; [reflexivity|]. split; [|reflexivity].
    exists r. right. eexists. reflexivity.
  - change (Some (exec (afterJson r (inl e)) clk 0 s tr) = Some R) in H.
    apply (inj Some) in H. subst R.
    rewrite exec_afterJson_reject. apply afterFailure_finished.
  - change (Some (exec (afterJson r (inr data)) clk 0 s tr) = Some R) in H.
    apply (inj Some) in H. subst R.
    apply afterJson_finished.
Qed.


Lemma submitRun_parks (s : State) clk tr :
  truthy (trim (inputMessage s)) = true →
  ∃ p, outcome (submitRun s clk tr) = Parked p ∧ TurnHandler p ∧
       isLoading (state (submitRun s clk tr)) = true ∧
       messages (state (submitRun s clk tr))
         = messages s ++ [userMessage s (clk 0%nat) (clk 1%nat)].
Proof.
  intros H. rewrite (submitRun_nonblank s clk tr H). simpl.
  eexists. split; [reflexivity|]. split; [|split; reflexivity].
  exists s. left. reflexivity.
Qed.

Lemma invoke_blank (w : World) clk :
  truthy (trim (inputMessage (ui w))) = false → invoke w clk = w.
Proof.
  intros H. unfold invoke. rewrite (submitRun_blank _ clk _ H).
  destruct w; reflexivity.
Qed.

Section Invariants.

Variable Inv : World → Prop.
Variable allowed : World → Event → Prop.
Hypothesis preserved :
  ∀ w ev w', Inv w → allowed w ev → step w ev = Some w' → Inv w'.

Lemma steps_preserve (evs : list Event) :
  (∀ w ev, allowed w ev) →
  ∀ w w', Inv w → steps w evs = Some w' → Inv w'.
Proof.
  intros Hall. induction evs as [|ev evs IH]; simpl; intros w w' Hw H.
  - injection H as <-. exact Hw.
  - destruct (step w ev) as [w1|] eqn:E; simpl in H; [|discriminate].
    eapply IH; [|exact H]. eapply preserved; eauto.
Qed.

Lemma usteps_preserve (evs : list Event) :
  (∀ w ev, enabled (ui w) ev = true → allowed w ev) →
  ∀ w w', Inv w → usteps w evs = Some w' → Inv w'.
Proof.
  intros Hall. induction evs as [|ev evs IH]; simpl; intros w w' Hw H.
  - injection H as <-. exact Hw.
  - destruct (enabled (ui w) ev) eqn:En; [|discriminate].
    destruct (step w ev) as [w1|] eqn:E; simpl in H; [|discriminate].
    eapply IH; [|exact H]. eapply preserved; eauto.
Qed.

End Invariants.

(** Every pending handler is a suspended call of [handleSendMessage]. *)
Lemma pending_turn_handlers_step (w : World) (ev : Event) (w' : World) :
  Forall TurnHandler (pending w) → step w ev = Some w' →
  Forall TurnHandler (pending w').
Proof.
  intros Hp H. destruct ev as [v | clk | clk | i | q | l | i x clk];
    simpl in H.
  - injection H as <-. exact Hp.
  - injection H as <-. unfold invoke.
    destruct (truthy (trim (inputMessage (ui w)))) eqn:Hb.
    + destruct (submitRun_parks (ui w) clk (trace w) Hb) as (p & Ho & Hh & _).
      unfold commit. rewrite Ho. simpl.
      apply Forall_app. split; [exact Hp | constructor; [exact Hh | constructor]].
    + rewrite (submitRun_blank _ clk _ Hb). exact Hp.
  - injection H as <-. unfold invoke.
    destruct (truthy (trim (inputMessage (ui w)))) eqn:Hb.
    + destruct (submitRun_parks (ui w) clk (trace w) Hb) as (p & Ho & Hh & _).
      unfold commit. rewrite Ho. simpl.
      apply Forall_app. split; [exact Hp | constructor; [exact Hh | constructor]].
    + rewrite (submitRun_blank _ clk _ Hb). exact Hp.
  - destruct (quickActions !! i); simpl in H; [|discriminate].
    injection H as <-. exact Hp.
  - injection H as <-. exact Hp.
  - injection H as <-. exact Hp.
  - destruct (pending w !! i) as [p|] eqn:Ei; simpl in H; [|discriminate].
    destruct (settle p x clk (ui w) (trace w)) as [R|] eqn:Es; simpl in H;
      [|discriminate].
    injection H as <-.
    assert (Hh : TurnHandler p).
    { eapply (proj1 (Forall_lookup _ _)); eauto. }
    assert (Hd : Forall TurnHandler (delete i (pending w))).
    { apply Forall_delete. exact Hp. }
    pose proof (settle_turn p x clk _ _ R Hh Es) as Hx.
    destruct x as [e | resp | data].
    + destruct Hx as (Ho & _). unfold commit. rewrite Ho. exact Hd.
    + destruct Hx as (p' & Ho & Hh' & _). unfold commit. rewrite Ho. simpl.
      apply Forall_app. split; [exact Hd | constructor; [exact Hh' | constructor]].
    + destruct Hx as (Ho & _). unfold commit. rewrite Ho. exact Hd.
Qed.

(** One event leaves the conversation as it is or adds one message at its
    end. *)
Lemma step_appends (w : World) (ev : Event) (w' : World) :
  Forall TurnHandler (pending w) → step w ev = Some w' →
  messages (ui w') = messages (ui w) ∨
  ∃ m, messages (ui w') = messages (ui w) ++ [m].
Proof.
  intros Hp H. destruct ev as [v | clk | clk | i | q | l | i x clk];
    simpl in H.
  - injection H as <-. left. reflexivity.
  - injection H as <-. unfold invoke.
    destruct (truthy (trim (inputMessage (ui w)))) eqn:Hb.
    + destruct (submitRun_parks (ui w) clk (trace w) Hb) as (p & Ho & _ & _ & Hm).
      unfold commit. rewrite Ho. simpl. right. eexists. exact Hm.
    + rewrite (submitRun_blank _ clk _ Hb). left. reflexivity.
  - injection H as <-. unfold invoke.
    destruct (truthy (trim (inputMessage (ui w)))) eqn:Hb.
    + destruct (submitRun_parks (ui w) clk (trace w) Hb) as (p & Ho & _ & _ & Hm).
      unfold commit. rewrite Ho. simpl. right. eexists. exact Hm.
    + rewrite (submitRun_blank _ clk _ Hb). left. reflexivity.
  - destruct (quickActions !! i); simpl in H; [|discriminate].
    injection H as <-. left. reflexivity.
  - injection H as <-. left. reflexivity.
  - injection H as <-. left. reflexivity.
  - destruct (pending w !! i) as [p|] eqn:Ei; simpl in H; [|discriminate].
    destruct (settle p x clk (ui w) (trace w)) as [R|] eqn:Es; simpl in H;
      [|discriminate].
    injection H as <-.
    assert (Hh : TurnHandler p).
    { eapply (proj1 (Forall_lookup _ _)); eauto. }
    pose proof (settle_turn p x clk _ _ R Hh Es) as Hx.
    destruct x as [e | resp | data].
    + destruct Hx as (Ho & (m & Hm & _) & _). unfold commit. rewrite Ho.
      right. exists m. exact Hm.
    + destruct Hx as (p' & Ho & _ & Hs). unfold commit. rewrite Ho. simpl.
      left. rewrite Hs. reflexivity.
    + destruct Hx as (Ho & (m & Hm & _) & _). unfold commit. rewrite Ho.
      right. exists m. exact Hm.
Qed.

Lemma reachable_turn_handlers (t0 : Z) (evs : list Event) (w : World) :
  steps (initialWorld t0) evs = Some w → Forall TurnHandler (pending w).
Proof.
  apply (steps_preserve (λ w, Forall TurnHandler (pending w)) (λ _ _, True)).
  - intros w0 ev w' Hw _ H. eapply pending_turn_handlers_step; eauto.
  - auto.
  - constructor.
Qed.

Lemma steps_prefix (evs : list Event) (w w' : World) :
  Forall TurnHandler (pending w) → steps w evs = Some w' →
  messages (ui w) `prefix_of` messages (ui w').
Proof.
  revert w. induction evs as [|ev evs IH]; simpl; intros w Hp H.
  - injection H as <-. reflexivity.
  - destruct (step w ev) as [w1|] eqn:E; simpl in H; [|discriminate].
    transitivity (messages (ui w1)).
    + destruct (step_appends w ev w1 Hp E) as [-> | [m ->]];
        [reflexivity | apply prefix_app_r; reflexivity].
    + apply IH; [|exact H]. eapply pending_turn_handlers_step; eauto.
Qed.

(** ** The conversation only grows *)

(** C9. In every world the widget can reach, whatever the order of user
    events and settlements, one event leaves the conversation as it is or
    adds one message at its end, and after any further events the earlier
    conversation is a prefix of the later one. *)
Theorem conversation_append_only (t0 : Z) (evs : list Event) (w : World) :
  steps (initialWorld t0) evs = Some w →
  (∀ ev w', step w ev = Some w' →
     messages (ui w') = messages (ui w) ∨
     ∃ m, messages (ui w') = messages (ui w) ++ [m]) ∧
  (∀ evs' w', steps w evs' = Some w' →
     messages (ui w) `prefix_of` messages (ui w')).
Proof.
  intros H%reachable_turn_handlers. split.
  - intros ev w'. apply step_appends. exact H.
  - intros evs' w'. apply steps_prefix. exact H.
Qed.

Lemma conversation_append_only_witness :
  (∀ ev w', step sentWorld ev = Some w' →
     messages (ui w') = messages (ui sentWorld) ∨
     ∃ m, messages (ui w') = messages (ui sentWorld) ++ [m]) ∧
  (∀ evs' w', steps sentWorld evs' = Some w' →
     messages (ui sentWorld) `prefix_of` messages (ui w')).
Proof.
  apply (conversation_append_only 1757541000000
           [TypeInput (lit " hi"); PressEnter sampleClock] sentWorld).
  reflexivity.
Defined.

(** ** The user message comes first *)

(** C4. A non-blank submission appends exactly one user message, holding
    the input text, in the run that ends at the first [await]: the call of
    [setMessages] precedes the issue of the [fetch], and whatever is
    appended later, the reply of this submission included, comes after
    it. *)
Theorem user_message_first (t0 : Z) (evs : list Event) (w : World) clk :
  steps (initialWorld t0) evs = Some w →
  truthy (trim (inputMessage (ui w))) = true →
  ∃ w1 u f p,
    step w (PressEnter clk) = Some w1 ∧
    step w (ClickSend clk) = Some w1 ∧
    messages (ui w1) = messages (ui w) ++ [u] ∧
    Msg.sender u = user ∧
    Msg.content u = JStr (inputMessage (ui w)) ∧
    pending w1 = pending w ++ [p] ∧
    trace w1 =
      trace w ++ [Called (SetMessages f); Called (SetInputMessage []);
                  Called (SetIsLoading true); Issued (op p)] ∧
    (∀ l, f l = l ++ [u]) ∧
    ∀ evs' w', steps w1 evs' = Some w' →
      (messages (ui w) ++ [u]) `prefix_of` messages (ui w').
Proof.
  intros Hw Hb.
  exists (invoke w clk), (userMessage (ui w) (clk 0%nat) (clk 1%nat)),
    (λ prev, prev ++ [userMessage (ui w) (clk 0%nat) (clk 1%nat)]),
    (mkSuspended (chatFetch (ui w)) (afterFetch (ui w))).
  split; [reflexivity|]. split; [reflexivity|].
  assert (E : invoke w clk =
    mkWorld
      (mkState (messages (ui w) ++ [userMessage (ui w) (clk 0%nat) (clk 1%nat)])
         [] true (selectedAI (ui w)) (selectedLanguage (ui w)))
      (pending w ++ [mkSuspended (chatFetch (ui w)) (afterFetch (ui w))])
      (trace w ++ [Called (SetMessages
                     (λ prev, prev ++ [userMessage (ui w) (clk 0%nat) (clk 1%nat)]));
                   Called (SetInputMessage []);
                   Called (SetIsLoading true);
                   Issued (chatFetch (ui w))])
      (unhandled w)).
  { unfold invoke. rewrite (submitRun_nonblank _ clk _ Hb). reflexivity. }
  split; [rewrite E; reflexivity|].
  split; [reflexivity|]. split; [reflexivity|].
  split; [rewrite E; reflexivity|].
  split; [rewrite E; reflexivity|].
  split; [reflexivity|].
  intros evs' w' H.
  assert (Hp : Forall TurnHandler (pending (invoke w clk))).
  { eapply (pending_turn_handlers_step w (PressEnter clk));
      [eapply reachable_turn_handlers; exact Hw | reflexivity]. }
  pose proof (steps_prefix evs' _ _ Hp H) as Hpre.
  rewrite E in Hpre at 1. exact Hpre.
Qed.

Lemma user_message_first_witness :
  ∃ w1 u f p,
    step typedWorld (PressEnter sampleClock) = Some w1 ∧
    step typedWorld (ClickSend sampleClock) = Some w1 ∧
    messages (ui w1) = messages (ui typedWorld) ++ [u] ∧
    Msg.sender u = user ∧
    Msg.content u = JStr (inputMessage (ui typedWorld)) ∧
    pending w1 = pending typedWorld ++ [p] ∧
    trace w1 =
      trace typedWorld ++ [Called (SetMessages f); Called (SetInputMessage []);
                           Called (SetIsLoading true); Issued (op p)] ∧
    (∀ l, f l = l ++ [u]) ∧
    ∀ evs' w', steps w1 evs' = Some w' →
      (messages (ui typedWorld) ++ [u]) `prefix_of` messages (ui w').
Proof.
  apply (user_message_first 1757541000000 [TypeInput (lit " hi")] typedWorld
           sampleClock); reflexivity.
Defined.

(** ** Loading *)

Lemma turn_inv_idle (w : World) :
  TurnInv w → isLoading (ui w) = false → pending w = [].
Proof.
  unfold TurnInv. destruct (pending w) as [|p [|q l]]; intros H Hl.
  - reflexivity.
  - destruct H as [H _]. congruence.
  - contradiction.
Qed.

Lemma turn_inv_same (w w' : World) :
  TurnInv w → pending w' = pending w → isLoading (ui w') = isLoading (ui w) →
  TurnInv w'.
Proof. unfold TurnInv. intros H -> ->. exact H. Qed.

Lemma turn_inv_invoke (w : World) clk :
  TurnInv w → isLoading (ui w) = false → TurnInv (invoke w clk).
Proof.
  intros Hi Hl. pose proof (turn_inv_idle w Hi Hl) as Hp.
  destruct (truthy (trim (inputMessage (ui w)))) eqn:Hb.
  - destruct (submitRun_parks (ui w) clk (trace w) Hb) as (p & Ho & Hh & Hld & _).
    unfold TurnInv, invoke, commit. rewrite Ho, Hp. simpl. auto.
  - rewrite (invoke_blank w clk Hb). exact Hi.
Qed.

(** A settlement within a turn: the resolution of [fetch] keeps the widget
    loading with the handler at its second [await]; any other settlement
    ends the turn, nothing escaping. *)
Lemma turn_inv_settle (w : World) i x clk (w' : World) :
  TurnInv w → step w (Settle i x clk) = Some w' →
  match x with
  | ResolveFetch _ =>
      isLoading (ui w') = true ∧ ∃ p, pending w' = [p] ∧ TurnHandler p
  | Reject _ | ResolveJson _ =>
      isLoading (ui w') = false ∧ pending w' = [] ∧
      last (trace w') = Some (Called (SetIsLoading false)) ∧
      unhandled w' = unhandled w
  end.
Proof.
  intros Hi H. simpl in H.
  destruct (pending w !! i) as [p|] eqn:Ei; simpl in H; [|discriminate].
  destruct (settle p x clk (ui w) (trace w)) as [R|] eqn:Es; simpl in H;
    [|discriminate].
  apply (inj Some) in H. subst w'.
  unfold TurnInv in Hi. destruct (pending w) as [|q [|q' l]] eqn:Ep;
    [discriminate | | contradiction].
  destruct Hi as [Hl Hh]. destruct i as [|i]; [|discriminate].
  simpl in Ei. apply (inj Some) in Ei. subst q.
  pose proof (settle_turn p x clk _ _ R Hh Es) as Hx.
  destruct x as [e | resp | data].
  - destruct Hx as (Ho & _ & Hf & Hlast). unfold commit. rewrite Ho. simpl. auto.
  - destruct Hx as (p' & Ho & Hh' & Hs). unfold commit. rewrite Ho. simpl.
    rewrite Hs. eauto.
  - destruct Hx as (Ho & _ & Hf & Hlast). unfold commit. rewrite Ho. simpl. auto.
Qed.

Lemma turn_inv_step (w : World) (ev : Event) (w' : World) :
  TurnInv w → enabled (ui w) ev = true → step w ev = Some w' → TurnInv w'.
Proof.
  intros Hi En H. destruct ev as [v | clk | clk | i | q | l | i x clk].
  - simpl in H. apply (inj Some) in H. subst w'.
    apply (turn_inv_same w); [exact Hi | reflexivity ..].
  - simpl in H, En. apply (inj Some) in H. subst w'.
    apply turn_inv_invoke; [exact Hi|]. destruct (isLoading (ui w)); auto.
  - simpl in H, En. apply (inj Some) in H. subst w'.
    apply turn_inv_invoke; [exact Hi|].
    destruct (isLoading (ui w)); [|reflexivity].
    rewrite orb_true_r in En. discriminate.
  - simpl in H. destruct (quickActions !! i); simpl in H; [|discriminate].
    apply (inj Some) in H. subst w'.
    apply (turn_inv_same w); [exact Hi | reflexivity ..].
  - simpl in H. apply (inj Some) in H. subst w'.
    apply (turn_inv_same w); [exact Hi | reflexivity ..].
  - simpl in H. apply (inj Some) in H. subst w'.
    apply (turn_inv_same w); [exact Hi | reflexivity ..].
  - pose proof (turn_inv_settle w i x clk w' Hi H) as Hx. unfold TurnInv.
    destruct x as [e | resp | data].
    + destruct Hx as (Hl & Hp & _). rewrite Hp. exact Hl.
    + destruct Hx as (Hl & p & Hp & Hh). rewrite Hp. auto.
    + destruct Hx as (Hl & Hp & _). rewrite Hp. exact Hl.
Qed.


Lemma turn_inv_loading (w : World) : TurnInv w → isLoading (ui w) = awaiting w.
Proof.
  unfold TurnInv, awaiting. destruct (pending w) as [|p [|q l]]; intros H.
  - exact H.
  - apply H.
  - contradiction.
Qed.




(** * Further properties of the component *)

(** ** What the reply may hold *)

(** X1. A [response] that is there but falsy (an empty string, [null], [false],
    zero) is replaced by the fallback text, as a missing one is. *)
Theorem falsy_response_fallback (s : State) clk tr resp clk1 s1 tr1
    (data v : json) clk2 s2 tr2 :
  truthy (trim (inputMessage s)) = true →
  getProp data (lit "response") = inr (Some v) →
  json_truthy v = false →
  ∃ R m,
    jsonSettled s clk tr resp clk1 s1 tr1 (ResolveJson data) clk2 s2 tr2
      = Some R ∧
    AnsweredTurn m s2 tr2 R ∧
    Msg.content m = JStr fallbackReply.
Proof.
  intros Hs Hr Hv.
  assert (Hn : isNull data = false) by (destruct data; [discriminate Hr | reflexivity ..]).
  destruct (getProp_nonnull data (lit "department") Hn) as [dept Hd].
  rewrite (jsonSettled_resolve s clk tr resp clk1 s1 tr1 _ clk2 s2 tr2 Hs).
  eexists. eexists. split; [reflexivity|]. split.
  - apply (answered s data (Some v) dept); assumption.
  - simpl. rewrite Hv. reflexivity.
Qed.

Lemma falsy_response_fallback_witness :
  ∃ R m,
    jsonSettled sampleState sampleClock [] (mkResponse 200)
      sampleClock laterState []
      (ResolveJson (JObj [ (lit "response", JStr []) ]))
      sampleClock laterState [] = Some R ∧
    AnsweredTurn m laterState [] R ∧
    Msg.content m = JStr fallbackReply.
Proof.
  apply (falsy_response_fallback sampleState sampleClock [] (mkResponse 200)
           sampleClock laterState []
           (JObj [ (lit "response", JStr []) ]) (JStr [])
           sampleClock laterState []); reflexivity.
Defined.

(** A truthy [response] that is no string, here an array, is stored as the
    content all the same. *)
Lemma reply_message_general_witness :
  ∃ R m,
    jsonSettled sampleState sampleClock [] (mkResponse 200)
      sampleClock laterState []
      (ResolveJson (JObj [ (lit "response", JArr [JStr (lit "a")]) ]))
      sampleClock laterState [] = Some R ∧
    AnsweredTurn m laterState [] R ∧
    Msg.content m = JArr [JStr (lit "a")] ∧
    Msg.department m = None ∧
    Msg.aiProvider m = Some (selectedAI sampleState).
Proof.
  apply (reply_message_general sampleState sampleClock [] (mkResponse 200)
           sampleClock laterState []
           (JObj [ (lit "response", JArr [JStr (lit "a")]) ])
           (JArr [JStr (lit "a")]) None
           sampleClock laterState []); reflexivity.
Defined.

(** X3. A body other than [null] without [department] gives a message whose
    [department] is unset, whatever its [response]. *)
Theorem missing_department_unset (s : State) clk tr resp clk1 s1 tr1
    (data : json) clk2 s2 tr2 :
  truthy (trim (inputMessage s)) = true →
  isNull data = false →
  hasField data (lit "department") = false →
  ∃ R m,
    jsonSettled s clk tr resp clk1 s1 tr1 (ResolveJson data) clk2 s2 tr2
      = Some R ∧
    AnsweredTurn m s2 tr2 R ∧
    Msg.sender m = ai ∧
    Msg.department m = None.
Proof.
  intros Hs Hn Hf.
  destruct (getProp_nonnull data (lit "response") Hn) as [reply Hr].
  rewrite (jsonSettled_resolve s clk tr resp clk1 s1 tr1 _ clk2 s2 tr2 Hs).
  eexists. eexists. split; [reflexivity|]. split.
  - apply (answered s data reply None);
      [exact Hr | apply getProp_missing; assumption].
  - split; reflexivity.
Qed.

Lemma missing_department_unset_witness :
  ∃ R m,
    jsonSettled sampleState sampleClock [] (mkResponse 200)
      sampleClock laterState []
      (ResolveJson (JObj [ (lit "response", JStr (lit "X")) ]))
      sampleClock laterState [] = Some R ∧
    AnsweredTurn m laterState [] R ∧
    Msg.sender m = ai ∧
    Msg.department m = None.
Proof.
  apply (missing_department_unset sampleState sampleClock [] (mkResponse 200)
           sampleClock laterState []
           (JObj [ (lit "response", JStr (lit "X")) ])
           sampleClock laterState []); reflexivity.
Defined.

(** X4. A body that parses to [null] ends the turn like a failed request: the
    [TypeError] of reading [data.response] is caught, the failure message
    appended, the stats callback not invoked. *)
Theorem null_body_fails (s : State) clk tr resp clk1 s1 tr1 clk2 s2 tr2 :
  truthy (trim (inputMessage s)) = true →
  ∃ R,
    jsonSettled s clk tr resp clk1 s1 tr1 (ResolveJson JNull) clk2 s2 tr2
      = Some R ∧
    FailedTurn s TypeError s2 tr2 R.
Proof.
  intros Hs.
  rewrite (jsonSettled_resolve s clk tr resp clk1 s1 tr1 _ clk2 s2 tr2 Hs).
  eexists. split; [reflexivity|].
  rewrite exec_afterJson_null. apply afterFailure_failed.
Qed.

Lemma null_body_fails_witness :
  ∃ R,
    jsonSettled sampleState sampleClock [] (mkResponse 200)
      sampleClock laterState [] (ResolveJson JNull)
      sampleClock laterState [] = Some R ∧
    FailedTurn sampleState TypeError laterState [] R.
Proof.
  apply (null_body_fails sampleState sampleClock [] (mkResponse 200)
           sampleClock laterState [] sampleClock laterState []).
  reflexivity.
Defined.

(** X5. The handler never looks at the response itself: how a turn ends
    depends on how the reading of the body settles, not on the status of
    the response it is read from. *)
Theorem status_ignored (s : State) clk tr (resp resp' : Response)
    clk1 s1 tr1 (x : Settlement) clk2 s2 tr2 :
  jsonSettled s clk tr resp clk1 s1 tr1 x clk2 s2 tr2 =
  jsonSettled s clk tr resp' clk1 s1 tr1 x clk2 s2 tr2.
Proof.
  destruct (truthy (trim (inputMessage s))) eqn:Hs.
  - unfold jsonSettled.
    rewrite !(fetchSettled_resolve s clk tr _ clk1 s1 tr1 Hs).
    destruct x; reflexivity.
  - unfold jsonSettled, fetchSettled.
    rewrite (submitRun_blank s clk tr Hs). reflexivity.
Qed.

(** ** The context window *)

(** X6. The context is the conversation of the render without all but its last
    five messages: the whole of it up to five, the last five beyond. *)
Theorem context_last_five (s : State) clk tr :
  truthy (trim (inputMessage s)) = true →
  ∃ req,
    issuedBody (submitRun s clk tr) = Some req ∧
    Body.context req = drop (length (messages s) - 5) (messages s) ∧
    length (Body.context req) = Nat.min 5 (length (messages s)).
Proof.
  intros H. exists (chatRequest s).
  split; [apply issuedBody_submit; exact H|].
  assert (E : slice (-5) (messages s)
              = drop (length (messages s) - 5) (messages s)).
  { unfold slice. cbv zeta.
    replace (-5 <? 0) with true by reflexivity.
    f_equal. lia. }
  change (Body.context (chatRequest s)) with (slice (-5) (messages s)).
  rewrite E. split; [reflexivity|].
  rewrite length_drop. lia.
Qed.

Lemma context_last_five_witness :
  ∃ req,
    issuedBody (submitRun longState sampleClock []) = Some req ∧
    Body.context req
      = drop (length (messages longState) - 5) (messages longState) ∧
    length (Body.context req) = Nat.min 5 (length (messages longState)).
Proof.
  apply (context_last_five longState sampleClock []). reflexivity.
Defined.

(** ** The controls *)

Lemma invoke_nonblank (w : World) clk :
  truthy (trim (inputMessage (ui w))) = true →
  invoke w clk =
    mkWorld
      (mkState (messages (ui w) ++ [userMessage (ui w) (clk 0%nat) (clk 1%nat)])
         [] true (selectedAI (ui w)) (selectedLanguage (ui w)))
      (pending w ++ [mkSuspended (chatFetch (ui w)) (afterFetch (ui w))])
      (trace w ++ [Called (SetMessages
                     (λ prev, prev ++ [userMessage (ui w) (clk 0%nat) (clk 1%nat)]));
                   Called (SetInputMessage []);
                   Called (SetIsLoading true);
                   Issued (chatFetch (ui w))])
      (unhandled w).
Proof.
  intros Hb. unfold invoke. rewrite (submitRun_nonblank _ clk _ Hb).
  reflexivity.
Qed.

Lemma exec_handleSendMessage (r : State) clk (s : State) (tr : list Effect) :
  truthy (trim (inputMessage r)) = true →
  exec (handleSendMessage r) clk 0 s tr =
    mkRun
      (mkState (messages s ++ [userMessage r (clk 0%nat) (clk 1%nat)]) [] true
         (selectedAI s) (selectedLanguage s))
      (tr ++ [Called (SetMessages
                        (λ prev, prev ++ [userMessage r (clk 0%nat) (clk 1%nat)]));
              Called (SetInputMessage []);
              Called (SetIsLoading true);
              Issued (chatFetch r)])
      (Parked (mkSuspended (chatFetch r) (afterFetch r))).
Proof.
  intros H. unfold handleSendMessage. rewrite H. cbn.
  rewrite <- !app_assoc. reflexivity.
Qed.

(** X7. A submission empties the input box, and the handler of the next
    render, which sees the empty box, does nothing when called by Enter or
    by the button. The handler of the same render still holds the old text
    in its closure: called a second time before the component has rendered
    again, it appends a second user message with that text and issues a
    second request with the same body. *)
Theorem resubmit_by_render (w : World) clk clk' :
  truthy (trim (inputMessage (ui w))) = true →
  ∃ w1 u u' p p',
    step w (PressEnter clk) = Some w1 ∧
    inputMessage (ui w1) = [] ∧
    step w1 (PressEnter clk') = Some w1 ∧
    step w1 (ClickSend clk') = Some w1 ∧
    messages (ui (invokeFrom (ui w) w1 clk')) = messages (ui w) ++ [u; u'] ∧
    Msg.sender u = user ∧ Msg.sender u' = user ∧
    Msg.content u = JStr (inputMessage (ui w)) ∧
    Msg.content u' = JStr (inputMessage (ui w)) ∧
    pending (invokeFrom (ui w) w1 clk') = pending w ++ [p; p'] ∧
    op p = chatFetch (ui w) ∧ op p' = chatFetch (ui w).
Proof.
  intros Hb.
  exists (invoke w clk), (userMessage (ui w) (clk 0%nat) (clk 1%nat)),
    (userMessage (ui w) (clk' 0%nat) (clk' 1%nat)),
    (mkSuspended (chatFetch (ui w)) (afterFetch (ui w))),
    (mkSuspended (chatFetch (ui w)) (afterFetch (ui w))).
  split; [reflexivity|].
  assert (Hi : inputMessage (ui (invoke w clk)) = [])
    by (rewrite (invoke_nonblank w clk Hb); reflexivity).
  split; [exact Hi|].
  assert (E : invoke (invoke w clk) clk' = invoke w clk).
  { apply invoke_blank. rewrite Hi. reflexivity. }
  simpl. rewrite E. split; [reflexivity|]. split; [reflexivity|].
  unfold invokeFrom. rewrite (exec_handleSendMessage (ui w) clk' _ _ Hb).
  unfold commit. cbn [outcome state effects ui pending messages].
  rewrite (invoke_nonblank w clk Hb).
  cbn [ui pending messages]. rewrite <- !app_assoc.
  repeat (split; [reflexivity|]). reflexivity.
Qed.

Lemma resubmit_by_render_witness :
  ∃ w1 u u' p p',
    step typedWorld (PressEnter sampleClock) = Some w1 ∧
    inputMessage (ui w1) = [] ∧
    step w1 (PressEnter sampleClock) = Some w1 ∧
    step w1 (ClickSend sampleClock) = Some w1 ∧
    messages (ui (invokeFrom (ui typedWorld) w1 sampleClock))
      = messages (ui typedWorld) ++ [u; u'] ∧
    Msg.sender u = user ∧ Msg.sender u' = user ∧
    Msg.content u = JStr (inputMessage (ui typedWorld)) ∧
    Msg.content u' = JStr (inputMessage (ui typedWorld)) ∧
    pending (invokeFrom (ui typedWorld) w1 sampleClock)
      = pending typedWorld ++ [p; p'] ∧
    op p = chatFetch (ui typedWorld) ∧ op p' = chatFetch (ui typedWorld).
Proof.
  apply (resubmit_by_render typedWorld sampleClock sampleClock). reflexivity.
Defined.

(** X8. The send button is enabled only where a click does send: the click
    appends the user message and issues the request, after which the input
    and the button are disabled and the button reads "Sending...". *)
Theorem enabled_send_sends (w : World) clk :
  sendDisabled (ui w) = false →
  ∃ w1 u p,
    step w (ClickSend clk) = Some w1 ∧
    messages (ui w1) = messages (ui w) ++ [u] ∧
    Msg.sender u = user ∧
    pending w1 = pending w ++ [p] ∧
    op p = chatFetch (ui w) ∧
    inputDisabled (ui w1) = true ∧
    sendDisabled (ui w1) = true ∧
    sendLabel (ui w) = lit "Send" ∧
    sendLabel (ui w1) = lit "Sending...".
Proof.
  unfold sendDisabled, sendLabel. intros [Hb Hl]%orb_false_elim.
  apply negb_false_iff in Hb.
  exists (invoke w clk), (userMessage (ui w) (clk 0%nat) (clk 1%nat)),
    (mkSuspended (chatFetch (ui w)) (afterFetch (ui w))).
  split; [reflexivity|].
  rewrite (invoke_nonblank w clk Hb), Hl. simpl.
  repeat split; reflexivity.
Qed.

Lemma enabled_send_sends_witness :
  ∃ w1 u p,
    step typedWorld (ClickSend sampleClock) = Some w1 ∧
    messages (ui w1) = messages (ui typedWorld) ++ [u] ∧
    Msg.sender u = user ∧
    pending w1 = pending typedWorld ++ [p] ∧
    op p = chatFetch (ui typedWorld) ∧
    inputDisabled (ui w1) = true ∧
    sendDisabled (ui w1) = true ∧
    sendLabel (ui typedWorld) = lit "Send" ∧
    sendLabel (ui w1) = lit "Sending...".
Proof.
  apply (enabled_send_sends typedWorld sampleClock). reflexivity.
Defined.

Lemma quickActions_plain (i : nat) (q : jsstring) :
  quickActions !! i = Some q → trim q = q ∧ truthy (trim q) = true.
Proof.
  intros H.
  do 8 (destruct i as [|i];
        [apply (inj Some) in H; subst q; split; vm_compute; reflexivity|]).
  discriminate H.
Qed.

(** X9. A quick question only fills the input box: nothing is sent and the
    conversation is as before. None of the questions is blank or has
    blanks around it, so sending next carries the question word for word,
    in the user message and in the request. *)
Theorem quick_question_then_send (w : World) (i : nat) (q : jsstring) clk :
  quickActions !! i = Some q →
  ∃ w1 w2 u p req,
    step w (ClickQuick i) = Some w1 ∧
    messages (ui w1) = messages (ui w) ∧
    pending w1 = pending w ∧
    inputMessage (ui w1) = q ∧
    step w1 (PressEnter clk) = Some w2 ∧
    messages (ui w2) = messages (ui w) ++ [u] ∧
    Msg.content u = JStr q ∧
    pending w2 = pending w ++ [p] ∧
    op p = chatFetch (ui w1) ∧
    issuedBody (submitRun (ui w1) clk (trace w1)) = Some req ∧
    Body.message req = q ∧
    Body.message req = trim q.
Proof.
  intros Hq. destruct (quickActions_plain i q Hq) as [Ht Hb].
  set (w1 := setState w (SetInputMessage q)).
  assert (Hb1 : truthy (trim (inputMessage (ui w1))) = true) by exact Hb.
  exists w1, (invoke w1 clk), (userMessage (ui w1) (clk 0%nat) (clk 1%nat)),
    (mkSuspended (chatFetch (ui w1)) (afterFetch (ui w1))), (chatRequest (ui w1)).
  split; [simpl; rewrite Hq; reflexivity|].
  split; [reflexivity|]. split; [reflexivity|]. split; [reflexivity|].
  split; [reflexivity|].
  rewrite (invoke_nonblank w1 clk Hb1).
  split; [reflexivity|]. split; [reflexivity|]. split; [reflexivity|].
  split; [reflexivity|].
  split; [apply issuedBody_submit; exact Hb1|].
  split; [reflexivity|]. simpl. symmetry. exact Ht.
Qed.

Lemma quick_question_then_send_witness :
  ∃ w1 w2 u p req,
    step sentWorld (ClickQuick 1) = Some w1 ∧
    messages (ui w1) = messages (ui sentWorld) ∧
    pending w1 = pending sentWorld ∧
    inputMessage (ui w1) = lit "VAT Registration" ∧
    step w1 (PressEnter sampleClock) = Some w2 ∧
    messages (ui w2) = messages (ui sentWorld) ++ [u] ∧
    Msg.content u = JStr (lit "VAT Registration") ∧
    pending w2 = pending sentWorld ++ [p] ∧
    op p = chatFetch (ui w1) ∧
    issuedBody (submitRun (ui w1) sampleClock (trace w1)) = Some req ∧
    Body.message req = lit "VAT Registration" ∧
    Body.message req = trim (lit "VAT Registration").
Proof.
  apply (quick_question_then_send sentWorld 1 (lit "VAT Registration")
           sampleClock).
  reflexivity.
Defined.

(** X10. The key binding of the input sends on Enter whatever the modifiers and
    ignores every other key. [handleKeyPress] does the same except on
    Shift+Enter, where it neither sends nor prevents the default: there the
    attached binding appends a message and [handleKeyPress] would not. *)
Theorem key_bindings (w : World) (e : KeyboardEvent) clk :
  (key e ≠ lit "Enter" →
     onKeyPress w e clk = w ∧ handleKeyPress w e clk = (false, w)) ∧
  (key e = lit "Enter" →
     onKeyPress w e clk = invoke w clk ∧
     handleKeyPress w e clk
       = if shiftKey e then (false, w) else (true, invoke w clk)) ∧
  (key e = lit "Enter" → shiftKey e = true →
     truthy (trim (inputMessage (ui w))) = true →
     length (messages (ui (onKeyPress w e clk)))
       = S (length (messages (ui (snd (handleKeyPress w e clk)))))).
Proof.
  unfold onKeyPress, handleKeyPress.
  destruct (JsString.eqb (key e) (lit "Enter")) eqn:E.
  - apply jsstring_eqb_eq in E. split; [intros H; contradiction|].
    split.
    + intros _. split; [reflexivity|]. destruct (shiftKey e); reflexivity.
    + intros _ Hs Hb. rewrite Hs. simpl.
      rewrite (invoke_nonblank w clk Hb). simpl.
      rewrite length_app. simpl. lia.
  - assert (Hne : key e ≠ lit "Enter").
    { intros H. apply jsstring_eqb_eq in H. congruence. }
    split; [intros _; split; reflexivity|].
    split; intros H; contradiction.
Qed.

Lemma key_bindings_witness :
  (key (mkKey (lit "Enter") true) ≠ lit "Enter" →
     onKeyPress typedWorld (mkKey (lit "Enter") true) sampleClock = typedWorld ∧
     handleKeyPress typedWorld (mkKey (lit "Enter") true) sampleClock
       = (false, typedWorld)) ∧
  (key (mkKey (lit "Enter") true) = lit "Enter" →
     onKeyPress typedWorld (mkKey (lit "Enter") true) sampleClock
       = invoke typedWorld sampleClock ∧
     handleKeyPress typedWorld (mkKey (lit "Enter") true) sampleClock
       = if shiftKey (mkKey (lit "Enter") true)
         then (false, typedWorld)
         else (true, invoke typedWorld sampleClock)) ∧
  (key (mkKey (lit "Enter") true) = lit "Enter" →
     shiftKey (mkKey (lit "Enter") true) = true →
     truthy (trim (inputMessage (ui typedWorld))) = true →
     length (messages (ui (onKeyPress typedWorld (mkKey (lit "Enter") true)
                             sampleClock)))
       = S (length (messages (ui (snd (handleKeyPress typedWorld
                                         (mkKey (lit "Enter") true)
                                         sampleClock)))))).
Proof.
  apply (key_bindings typedWorld (mkKey (lit "Enter") true) sampleClock).
Defined.

(** ** The shape of every transition *)

Lemma exec_afterJson_reply (r : State) (data : json) reply dept clk i s tr :
  getProp data (lit "response") = inr reply →
  getProp data (lit "department") = inr dept →
  exec (afterJson r (inr data)) clk i s tr =
    afterReply r (clk i) reply (clk (S i)) dept s tr.
Proof. apply exec_afterJson_data. Qed.

Lemma settle_settled (w : World) (i : nat) (x : Settlement) clk (w' : World) :
  Forall TurnHandler (pending w) →
  step w (Settle i x clk) = Some w' →
  Settled w w'.
Proof.
  intros Hp H. simpl in H.
  destruct (pending w !! i) as [p|] eqn:Ei; simpl in H; [|discriminate].
  destruct (settle p x clk (ui w) (trace w)) as [R|] eqn:Es; simpl in H;
    [|discriminate].
  apply (inj Some) in H. subst w'.
  assert (Hh : TurnHandler p).
  { eapply (proj1 (Forall_lookup _ _)); eauto. }
  destruct Hh as [r [-> | [resp ->]]]; destruct x as [e | resp' | data];
    try (cbv in Es; discriminate Es).
  - change (Some (exec (afterFetch r (inl e)) clk 0 (ui w) (trace w)) = Some R)
      in Es.
    apply (inj Some) in Es. subst R. rewrite exec_afterFetch_reject.
    eapply settled_fail; [exact Ei | reflexivity].
  - change (Some (exec (afterFetch r (inr resp')) clk 0 (ui w) (trace w)) = Some R)
      in Es.
    apply (inj Some) in Es. subst R. rewrite exec_afterFetch_resolve.
    eapply settled_continue; [exact Ei | reflexivity].
  - change (Some (exec (afterJson r (inl e)) clk 0 (ui w) (trace w)) = Some R)
      in Es.
    apply (inj Some) in Es. subst R. rewrite exec_afterJson_reject.
    eapply settled_fail; [exact Ei | reflexivity].
  - change (Some (exec (afterJson r (inr data)) clk 0 (ui w) (trace w)) = Some R)
      in Es.
    apply (inj Some) in Es. subst R.
    destruct (isNull data) eqn:Hn.
    + destruct data; try discriminate. rewrite exec_afterJson_null.
      eapply settled_fail; [exact Ei | reflexivity].
    + destruct (getProp_nonnull data (lit "response") Hn) as [reply Hr].
      destruct (getProp_nonnull data (lit "department") Hn) as [dept Hd].
      rewrite (exec_afterJson_reply r data reply dept clk 0 _ _ Hr Hd).
      eapply settled_reply; [exact Ei | reflexivity].
Qed.

Lemma invoke_transition (w : World) clk : Transition w (invoke w clk).
Proof.
  destruct (truthy (trim (inputMessage (ui w)))) eqn:Hb.
  - eapply trans_submit; [exact Hb | apply invoke_nonblank; exact Hb].
  - apply trans_same. apply invoke_blank. exact Hb.
Qed.

Lemma step_transition (w : World) (ev : Event) (w' : World) :
  Forall TurnHandler (pending w) → step w ev = Some w' → Transition w w'.
Proof.
  intros Hp H. destruct ev as [v | clk | clk | i | q | l | i x clk].
  - simpl in H. apply (inj Some) in H. subst w'.
    apply (trans_set w _ (SetInputMessage v)); reflexivity.
  - simpl in H. apply (inj Some) in H. subst w'. apply invoke_transition.
  - simpl in H. apply (inj Some) in H. subst w'. apply invoke_transition.
  - simpl in H. destruct (quickActions !! i) as [question|]; simpl in H;
      [|discriminate].
    apply (inj Some) in H. subst w'.
    apply (trans_set w _ (SetInputMessage question)); reflexivity.
  - simpl in H. apply (inj Some) in H. subst w'.
    apply (trans_set w _ (SetSelectedAI q)); reflexivity.
  - simpl in H. apply (inj Some) in H. subst w'.
    apply (trans_set w _ (SetSelectedLanguage l)); reflexivity.
  - apply trans_settled. eapply settle_settled; eauto.
Qed.

(** ** What a settlement leaves alone *)

(** X11. A settlement, reply or failure, changes neither the text of the input
    box nor the selections: what was picked or filled in while the request
    was in flight is still there afterwards. It never lengthens the list
    of pending handlers either. *)
Theorem settlement_keeps_input (t0 : Z) (evs : list Event) (w : World)
    (i : nat) (x : Settlement) clk (w' : World) :
  steps (initialWorld t0) evs = Some w →
  step w (Settle i x clk) = Some w' →
  inputMessage (ui w') = inputMessage (ui w) ∧
  selectedAI (ui w') = selectedAI (ui w) ∧
  selectedLanguage (ui w') = selectedLanguage (ui w) ∧
  (length (pending w') ≤ length (pending w))%nat.
Proof.
  intros Hw%reachable_turn_handlers H.
  destruct (settle_settled w i x clk w' Hw H)
    as [j r resp Hj -> | j p r now reply ts dept Hj -> | j p r e now ts Hj ->];
    simpl; repeat split; try reflexivity.
  - rewrite length_app, length_delete by eauto. simpl.
    apply lookup_lt_Some in Hj. lia.
  - rewrite length_delete by eauto. lia.
  - rewrite length_delete by eauto. lia.
Qed.

Lemma settlement_keeps_input_witness :
  inputMessage (ui rejectedWorld) = inputMessage (ui filledWorld) ∧
  selectedAI (ui rejectedWorld) = selectedAI (ui filledWorld) ∧
  selectedLanguage (ui rejectedWorld) = selectedLanguage (ui filledWorld) ∧
  (length (pending rejectedWorld) ≤ length (pending filledWorld))%nat.
Proof.
  apply (settlement_keeps_input 1757541000000
           [TypeInput (lit " hi"); PressEnter sampleClock; ClickQuick 1]
           filledWorld 0 (Reject TypeError) sampleClock rejectedWorld);
    reflexivity.
Defined.

(** ** The books of the widget *)

Lemma tally_app {A : Type} (f : A → bool) (l l' : list A) :
  tally f (l ++ l') = (tally f l + tally f l')%nat.
Proof. unfold tally. rewrite List.filter_app. apply length_app. Qed.

Lemma statsUpdates_tally (tr : list Effect) :
  statsUpdates tr = tally isStatsUpdate tr.
Proof. reflexivity. Qed.

Lemma tally_nil {A : Type} (f : A → bool) : tally f [] = 0%nat.
Proof. reflexivity. Qed.

Lemma tally_cons {A : Type} (f : A → bool) (x : A) (l : list A) :
  tally f (x :: l) = ((if f x then 1 else 0) + tally f l)%nat.
Proof. unfold tally. simpl. destruct (f x); reflexivity. Qed.

#[local] Arguments tally : simpl never.

Ltac count_up :=
  rewrite ?statsUpdates_tally; simpl;
  rewrite ?tally_app, ?tally_cons, ?tally_nil, ?length_app; simpl.

Lemma balanced_transition (w w' : World) :
  Balanced w → Transition w w' → Balanced w'.
Proof.
  unfold Balanced. rewrite !statsUpdates_tally.
  intros (Hu & Hf & Ha & Hp) [-> | c Hc -> | clk Hb -> | Hs].
  - rewrite !statsUpdates_tally. auto.
  - destruct c; try discriminate Hc; count_up; (split; [exact Hu|]); lia.
  - count_up. split; [exact Hu|]. lia.
  - destruct Hs
      as [i r resp Hi -> | i p r now reply ts dept Hi -> | i p r e now ts Hi ->];
      count_up; rewrite length_delete by eauto;
      apply lookup_lt_Some in Hi; (split; [exact Hu|]); lia.
Qed.

(** X12. In every world the widget can reach, with or without the controls
    being disabled: no error has escaped a handler; there are as many user
    messages as requests issued; the assistant messages are the greeting
    and one per stats update or logged error; and every request issued is
    either still pending or accounted for by one stats update or one logged
    error. *)
Theorem books_balance (t0 : Z) (evs : list Event) (w : World) :
  steps (initialWorld t0) evs = Some w →
  unhandled w = [] ∧
  tally fromUser (messages (ui w)) = tally isFetchIssue (trace w) ∧
  tally fromAssistant (messages (ui w))
    = S (statsUpdates (trace w) + tally isConsoleError (trace w)) ∧
  tally isFetchIssue (trace w)
    = (length (pending w) + statsUpdates (trace w)
       + tally isConsoleError (trace w))%nat.
Proof.
  intros H.
  apply (steps_preserve
           (λ w, Forall TurnHandler (pending w) ∧ Balanced w) (λ _ _, True))
    in H.
  - apply H.
  - intros w0 ev w1 [Hp Hb] _ Hs. split.
    + eapply pending_turn_handlers_step; eauto.
    + eapply balanced_transition; [exact Hb|].
      eapply step_transition; eauto.
  - auto.
  - split; [constructor|]. repeat split.
Qed.

Lemma books_balance_witness :
  unhandled rejectedWorld = [] ∧
  tally fromUser (messages (ui rejectedWorld))
    = tally isFetchIssue (trace rejectedWorld) ∧
  tally fromAssistant (messages (ui rejectedWorld))
    = S (statsUpdates (trace rejectedWorld)
         + tally isConsoleError (trace rejectedWorld)) ∧
  tally isFetchIssue (trace rejectedWorld)
    = (length (pending rejectedWorld) + statsUpdates (trace rejectedWorld)
       + tally isConsoleError (trace rejectedWorld))%nat.
Proof.
  apply (books_balance 1757541000000
           [TypeInput (lit " hi"); PressEnter sampleClock; ClickQuick 1;
            Settle 0 (Reject TypeError) sampleClock]
           rejectedWorld).
  reflexivity.
Defined.

(** ** Who said what *)

Lemma tagged_transition (w w' : World) :
  Forall Tagged (messages (ui w)) → Transition w w' →
  Forall Tagged (messages (ui w')).
Proof.
  intros Ht [-> | c Hc -> | clk Hb -> | Hs].
  - exact Ht.
  - destruct c; try discriminate Hc; exact Ht.
  - simpl. apply Forall_app. split; [exact Ht|].
    constructor; [split; reflexivity | constructor].
  - destruct Hs
      as [i r resp Hi -> | i p r now reply ts dept Hi -> | i p r e now ts Hi ->];
      simpl; [exact Ht | |];
      (apply Forall_app; split; [exact Ht|]);
      (constructor; [unfold Tagged; simpl; eauto | constructor]).
Qed.

(** X13. In every world the widget can reach, the conversation still begins
    with the greeting, and a provider name is shown under exactly the
    assistant messages, which are the ones drawn on the left; a user
    message carries neither provider nor department. *)
Theorem labels_on_assistant_messages (t0 : Z) (evs : list Event) (w : World) :
  steps (initialWorld t0) evs = Some w →
  messages (initialState t0) `prefix_of` messages (ui w) ∧
  ∀ m, m ∈ messages (ui w) →
    (is_Some (providerLabel m) ↔ Msg.sender m = ai) ∧
    (is_Some (providerLabel m) ↔ bubbleSide m = lit "justify-start") ∧
    (Msg.sender m = user → Msg.department m = None).
Proof.
  intros H. split.
  { apply (steps_prefix evs (initialWorld t0) w); [constructor | exact H]. }
  apply (steps_preserve
           (λ w, Forall TurnHandler (pending w) ∧ Forall Tagged (messages (ui w)))
           (λ _ _, True)) in H.
  - destruct H as [_ Ht]. intros m Hm.
    pose proof (proj1 (Forall_forall _ _) Ht m Hm) as Hg.
    unfold Tagged in Hg. unfold providerLabel, bubbleSide.
    destruct (Msg.sender m).
    + destruct Hg as [-> ->]. simpl.
      repeat split; try (intros [? ?]); try discriminate.
    + destruct Hg as [p ->]. simpl.
      repeat split; try discriminate; eauto.
  - intros w0 ev w1 [Hp Ht] _ Hs. split.
    + eapply pending_turn_handlers_step; eauto.
    + eapply tagged_transition; [exact Ht|].
      eapply step_transition; eauto.
  - auto.
  - split; [constructor|]. constructor; [|constructor].
    unfold Tagged. simpl. eauto.
Qed.

Lemma labels_on_assistant_messages_witness :
  messages (initialState 1757541000000) `prefix_of` messages (ui rejectedWorld) ∧
  ∀ m, m ∈ messages (ui rejectedWorld) →
    (is_Some (providerLabel m) ↔ Msg.sender m = ai) ∧
    (is_Some (providerLabel m) ↔ bubbleSide m = lit "justify-start") ∧
    (Msg.sender m = user → Msg.department m = None).
Proof.
  apply (labels_on_assistant_messages 1757541000000
           [TypeInput (lit " hi"); PressEnter sampleClock; ClickQuick 1;
            Settle 0 (Reject TypeError) sampleClock]
           rejectedWorld).
  reflexivity.
Defined.

(** ** Turns under the enabled controls *)

Lemma alternating_snoc (l : list ChatMessage) (m : ChatMessage) (b : bool) :
  alternating l = true →
  (fromUser <$> last l) = Some b →
  fromUser m = negb b →
  alternating (l ++ [m]) = true.
Proof.
  induction l as [|a l IH]; [reflexivity|].
  destruct l as [|a' l].
  - simpl. intros _ [= Ha] Hm. rewrite Ha, Hm.
    destruct b; reflexivity.
  - intros Halt Hlast Hm.
    change (alternating ((a :: a' :: l) ++ [m]))
      with (negb (Bool.eqb (fromUser a) (fromUser a'))
            && alternating ((a' :: l) ++ [m])).
    change (alternating (a :: a' :: l))
      with (negb (Bool.eqb (fromUser a) (fromUser a')) && alternating (a' :: l))
      in Halt.
    apply andb_true_iff in Halt as [Hh Ht]. rewrite Hh. simpl.
    apply IH; [exact Ht | exact Hlast | exact Hm].
Qed.

Lemma fmap_last_snoc (l : list ChatMessage) (m : ChatMessage) :
  (fromUser <$> last (l ++ [m])) = Some (fromUser m).
Proof. rewrite last_snoc. reflexivity. Qed.

Lemma in_turns_append (w w' : World) (m : ChatMessage) :
  InTurns w → TurnInv w' →
  messages (ui w') = messages (ui w) ++ [m] →
  fromUser m = negb (awaiting w) →
  awaiting w' = negb (awaiting w) →
  InTurns w'.
Proof.
  intros (_ & Halt & Hlast & Hodd) Hi Hm Hf Ha.
  split; [exact Hi|]. rewrite Hm. split; [|split].
  - eapply alternating_snoc; eauto.
  - rewrite fmap_last_snoc, Hf, Ha. reflexivity.
  - rewrite length_app, Ha, Nat.add_comm. simpl.
    rewrite Nat.odd_succ, <- Nat.negb_odd, Hodd. reflexivity.
Qed.

Lemma in_turns_same (w w' : World) :
  InTurns w → TurnInv w' →
  messages (ui w') = messages (ui w) →
  awaiting w' = awaiting w →
  InTurns w'.
Proof.
  intros (_ & Halt & Hlast & Hodd) Hi Hm Ha.
  split; [exact Hi|]. rewrite Hm, Ha. auto.
Qed.

Lemma in_turns_step (w : World) (ev : Event) (w' : World) :
  InTurns w → enabled (ui w) ev = true → step w ev = Some w' → InTurns w'.
Proof.
  intros Hin En H. pose proof Hin as (Hi & _).
  pose proof (turn_inv_step w ev w' Hi En H) as Hi'.
  assert (Hquiet : ∀ c, quietCall c = true → InTurns (setState w c)).
  { intros c Hc. apply (in_turns_same w); [exact Hin | | |].
    - apply (turn_inv_same w); [exact Hi | reflexivity|].
      destruct c; try discriminate Hc; reflexivity.
    - destruct c; try discriminate Hc; reflexivity.
    - reflexivity. }
  assert (Hsend : ∀ clk, isLoading (ui w) = false → InTurns (invoke w clk)).
  { intros clk Hl. pose proof (turn_inv_idle w Hi Hl) as Hp.
    destruct (truthy (trim (inputMessage (ui w)))) eqn:Hb.
    - eapply (in_turns_append w);
        [exact Hin | apply turn_inv_invoke; assumption | | |].
      + rewrite (invoke_nonblank w clk Hb). reflexivity.
      + unfold awaiting. rewrite Hp. reflexivity.
      + rewrite (invoke_nonblank w clk Hb). unfold awaiting. simpl.
        rewrite Hp. reflexivity.
    - rewrite (invoke_blank w clk Hb). exact Hin. }
  destruct ev as [v | clk | clk | i | q | l | i x clk].
  - simpl in H. apply (inj Some) in H. subst w'. apply Hquiet. reflexivity.
  - simpl in H, En. apply (inj Some) in H. subst w'. apply Hsend.
    destruct (isLoading (ui w)); [discriminate En | reflexivity].
  - simpl in H, En. apply (inj Some) in H. subst w'. apply Hsend.
    destruct (isLoading (ui w)); [|reflexivity].
    rewrite orb_true_r in En. discriminate En.
  - simpl in H. destruct (quickActions !! i) as [question|]; simpl in H;
      [|discriminate].
    apply (inj Some) in H. subst w'. apply Hquiet. reflexivity.
  - simpl in H. apply (inj Some) in H. subst w'. apply Hquiet. reflexivity.
  - simpl in H. apply (inj Some) in H. subst w'. apply Hquiet. reflexivity.
  - assert (Hp : ∃ p, pending w = [p] ∧ TurnHandler p ∧ i = 0%nat).
    { simpl in H. unfold TurnInv in Hi.
      destruct (pending w) as [|p [|p' rest]] eqn:Ep.
      - rewrite lookup_nil in H. discriminate H.
      - destruct i as [|i]; [|rewrite lookup_cons_ne_0, lookup_nil in H by lia;
                                discriminate H].
        exists p. destruct Hi as [_ Hh]. auto.
      - contradiction. }
    destruct Hp as (p & Ep & Hh & ->).
    assert (Hf : Forall TurnHandler (pending w))
      by (rewrite Ep; constructor; [exact Hh | constructor]).
    assert (Ha : awaiting w = true) by (unfold awaiting; rewrite Ep; reflexivity).
    destruct (settle_settled w 0 x clk w' Hf H)
      as [j r resp Hj E | j p' r now reply ts dept Hj E | j p' r e now ts Hj E].
    + apply (in_turns_same w); [exact Hin | exact Hi' | subst w'; reflexivity|].
      rewrite Ha. subst w'. unfold awaiting. simpl.
      destruct (delete j (pending w)); reflexivity.
    + assert (j = 0%nat) as ->.
      { rewrite Ep in Hj. apply lookup_lt_Some in Hj. simpl in Hj. lia. }
      eapply (in_turns_append w);
        [exact Hin | exact Hi' | subst w'; reflexivity | |].
      * rewrite Ha. reflexivity.
      * subst w'. unfold awaiting. simpl. rewrite Ep. reflexivity.
    + assert (j = 0%nat) as ->.
      { rewrite Ep in Hj. apply lookup_lt_Some in Hj. simpl in Hj. lia. }
      eapply (in_turns_append w);
        [exact Hin | exact Hi' | subst w'; reflexivity | |].
      * rewrite Ha. reflexivity.
      * subst w'. unfold awaiting. simpl. rewrite Ep. reflexivity.
Qed.

(** X14. Over every run of the widget in which user events come from enabled
    controls, the conversation is made of turns: after the greeting, user
    and assistant messages alternate, the last message is the user's
    exactly while a request is pending, and the number of messages shown in
    the header is odd exactly when the widget is idle. *)
Theorem conversation_in_turns (t0 : Z) (evs : list Event) (w : World) :
  usteps (initialWorld t0) evs = Some w →
  alternating (messages (ui w)) = true ∧
  (fromUser <$> last (messages (ui w))) = Some (awaiting w) ∧
  Nat.odd (length (messages (ui w))) = negb (awaiting w) ∧
  awaiting w = isLoading (ui w).
Proof.
  intros H.
  apply (usteps_preserve InTurns (λ w ev, enabled (ui w) ev = true)) in H.
  - destruct H as (Hi & Halt & Hlast & Hodd).
    repeat split; try assumption. symmetry. apply turn_inv_loading. exact Hi.
  - intros w0 ev w1 Hin En Hs. eapply in_turns_step; eauto.
  - auto.
  - repeat split.
Qed.

Lemma conversation_in_turns_witness :
  alternating (messages (ui rejectedWorld)) = true ∧
  (fromUser <$> last (messages (ui rejectedWorld)))
    = Some (awaiting rejectedWorld) ∧
  Nat.odd (length (messages (ui rejectedWorld))) = negb (awaiting rejectedWorld) ∧
  awaiting rejectedWorld = isLoading (ui rejectedWorld).
Proof.
  apply (conversation_in_turns 1757541000000
           [TypeInput (lit " hi"); PressEnter sampleClock; ClickQuick 1;
            Settle 0 (Reject TypeError) sampleClock]
           rejectedWorld).
  reflexivity.
Defined.

(** ** A whole turn *)

Lemma steps_cons (w w1 : World) (ev : Event) (evs : list Event) :
  step w ev = Some w1 → steps w (ev :: evs) = steps w1 evs.
Proof. intros H. simpl. rewrite H. reflexivity. Qed.

Lemma step_settle (w : World) (i : nat) (p : Suspended) (x : Settlement)
    clk (R : Run) :
  pending w !! i = Some p →
  settle p x clk (ui w) (trace w) = Some R →
  step w (Settle i x clk) = Some (commit w (delete i (pending w)) R).
Proof. intros Hp Hs. simpl. rewrite Hp. simpl. rewrite Hs. reflexivity. Qed.

(** X15. From an idle widget: typing a text, choosing provider and language and
    pressing Enter, then changing the provider while the request is in
    flight, then the response arriving and its body parsing to a reply with
    a truthy [response]. The conversation gains the user message with the
    typed text and the assistant message with the reply, tagged with the
    provider chosen before sending; the later choice is the one selected at
    the end; the input box is empty, nothing is loading or pending, and the
    stats callback has been invoked once. *)
Theorem whole_turn (w : World) (v : jsstring) (p q : AIProvider) (l : jsstring)
    clk (resp : Response) clk1 (data rv : json) (dept : option json) clk2 :
  pending w = [] →
  truthy (trim v) = true →
  getProp data (lit "response") = inr (Some rv) →
  json_truthy rv = true →
  getProp data (lit "department") = inr dept →
  ∃ w' u m,
    steps w [ TypeInput v; ChooseAI p; ChooseLanguage l; PressEnter clk;
              ChooseAI q; Settle 0 (ResolveFetch resp) clk1;
              Settle 0 (ResolveJson data) clk2 ] = Some w' ∧
    messages (ui w') = messages (ui w) ++ [u; m] ∧
    Msg.sender u = user ∧ Msg.content u = JStr v ∧
    Msg.sender m = ai ∧ Msg.content m = rv ∧
    Msg.department m = dept ∧ Msg.aiProvider m = Some p ∧
    selectedAI (ui w') = q ∧ selectedLanguage (ui w') = l ∧
    inputMessage (ui w') = [] ∧ isLoading (ui w') = false ∧
    pending w' = [] ∧
    statsUpdates (trace w') = S (statsUpdates (trace w)) ∧
    unhandled w' = unhandled w.
Proof.
  intros Hp Hv Hr Ht Hd.
  set (w3 := setState (setState (setState w (SetInputMessage v))
                         (SetSelectedAI p)) (SetSelectedLanguage l)).
  assert (Hb : truthy (trim (inputMessage (ui w3))) = true) by exact Hv.
  set (r := ui w3).
  set (u := userMessage r (clk 0%nat) (clk 1%nat)).
  set (m := aiMessage r (clk2 0%nat) (Some rv) (clk2 1%nat) dept).
  set (w5 := setState (invoke w3 clk) (SetSelectedAI q)).
  assert (S5 : ∀ rest,
    steps w (TypeInput v :: ChooseAI p :: ChooseLanguage l :: PressEnter clk
             :: ChooseAI q :: rest) = steps w5 rest) by reflexivity.
  assert (U5 : ui w5 = mkState (messages (ui w) ++ [u]) [] true q l).
  { unfold w5. simpl. rewrite (invoke_nonblank w3 clk Hb). reflexivity. }
  assert (P5 : pending w5 = [mkSuspended (chatFetch r) (afterFetch r)]).
  { unfold w5. simpl. rewrite (invoke_nonblank w3 clk Hb). simpl.
    rewrite Hp. reflexivity. }
  assert (T5 : statsUpdates (trace w5) = statsUpdates (trace w)).
  { unfold w5. simpl. rewrite (invoke_nonblank w3 clk Hb). simpl.
    rewrite !statsUpdates_app. unfold statsUpdates at 2 3 4 5 6. simpl. lia. }
  assert (H5 : unhandled w5 = unhandled w).
  { unfold w5. simpl. rewrite (invoke_nonblank w3 clk Hb). reflexivity. }
  clearbody w5.
  set (w6 := mkWorld (ui w5) [mkSuspended (ResponseJson resp) (afterJson r)]
               (trace w5 ++ [Issued (ResponseJson resp)]) (unhandled w5)).
  assert (S6 : step w5 (Settle 0 (ResolveFetch resp) clk1) = Some w6).
  { rewrite (step_settle w5 0 (mkSuspended (chatFetch r) (afterFetch r))
               (ResolveFetch resp) clk1
               (mkRun (ui w5) (trace w5 ++ [Issued (ResponseJson resp)])
                  (Parked (mkSuspended (ResponseJson resp) (afterJson r))))).
    - unfold commit. cbn [outcome state effects]. rewrite P5. reflexivity.
    - rewrite P5. reflexivity.
    - reflexivity. }
  set (w7 := mkWorld (mkState (messages (ui w5) ++ [m]) (inputMessage (ui w5))
                        false (selectedAI (ui w5)) (selectedLanguage (ui w5)))
               []
               ((trace w5 ++ [Issued (ResponseJson resp)]) ++
                  [Called (SetMessages (λ prev, prev ++ [m]));
                   Called OnStatsUpdate; Called (SetIsLoading false)])
               (unhandled w5)).
  assert (S7 : step w6 (Settle 0 (ResolveJson data) clk2) = Some w7).
  { rewrite (step_settle w6 0 (mkSuspended (ResponseJson resp) (afterJson r))
               (ResolveJson data) clk2
               (afterReply r (clk2 0%nat) (Some rv) (clk2 1%nat) dept
                  (ui w6) (trace w6))).
    - reflexivity.
    - reflexivity.
    - unfold settle. cbn [op resume deliver mbind option_bind].
      f_equal. apply exec_afterJson_reply; assumption. }
  exists w7, u, m. split.
  { rewrite S5. rewrite (steps_cons _ _ _ _ S6).
    rewrite (steps_cons _ _ _ _ S7). reflexivity. }
  unfold w7. cbn [ui pending trace unhandled messages inputMessage isLoading
                  selectedAI selectedLanguage].
  rewrite U5. cbn [messages inputMessage selectedAI selectedLanguage].
  split; [rewrite <- app_assoc; reflexivity|].
  repeat (split; [reflexivity|]).
  split; [simpl; rewrite Ht; reflexivity|].
  repeat (split; [reflexivity|]).
  split; [|exact H5].
  rewrite !statsUpdates_app, T5. unfold statsUpdates at 2 3. simpl. lia.
Qed.

Lemma whole_turn_witness :
  ∃ w' u m,
    steps (initialWorld 1757541000000)
      [ TypeInput (lit " hi"); ChooseAI grok; ChooseLanguage (lit "ar");
        PressEnter sampleClock; ChooseAI deepseek;
        Settle 0 (ResolveFetch (mkResponse 200)) sampleClock;
        Settle 0 (ResolveJson sampleReply) sampleClock ] = Some w' ∧
    messages (ui w') = messages (ui (initialWorld 1757541000000)) ++ [u; m] ∧
    Msg.sender u = user ∧ Msg.content u = JStr (lit " hi") ∧
    Msg.sender m = ai ∧ Msg.content m = JStr (lit "X") ∧
    Msg.department m = Some (JStr (lit "Tax")) ∧
    Msg.aiProvider m = Some grok ∧
    selectedAI (ui w') = deepseek ∧ selectedLanguage (ui w') = lit "ar" ∧
    inputMessage (ui w') = [] ∧ isLoading (ui w') = false ∧
    pending w' = [] ∧
    statsUpdates (trace w')
      = S (statsUpdates (trace (initialWorld 1757541000000))) ∧
    unhandled w' = unhandled (initialWorld 1757541000000).
Proof.
  apply (whole_turn (initialWorld 1757541000000) (lit " hi") grok deepseek
           (lit "ar") sampleClock (mkResponse 200) sampleClock
           sampleReply (JStr (lit "X")) (Some (JStr (lit "Tax"))) sampleClock);
    reflexivity.
Defined.

(** ** Every request sent *)

Lemma turn_inv_handlers (w : World) :
  TurnInv w → Forall TurnHandler (pending w).
Proof.
  unfold TurnInv. destruct (pending w) as [|p [|p' rest]]; intros H.
  - constructor.
  - constructor; [apply H | constructor].
  - contradiction.
Qed.

Lemma well_formed_step (w : World) (ev : Event) (w' : World) :
  TurnInv w →
  offered (selectedLanguage (ui w)) = true →
  Forall WellFormed (trace w) →
  enabled (ui w) ev = true →
  step w ev = Some w' →
  offered (selectedLanguage (ui w')) = true ∧ Forall WellFormed (trace w').
Proof.
  intros Hi Ho Hw En H.
  assert (Hcall : ∀ c, Forall WellFormed (trace w ++ [Called c])).
  { intros c. apply Forall_app. split; [exact Hw | repeat constructor]. }
  assert (Hsend : ∀ clk,
    offered (selectedLanguage (ui (invoke w clk))) = true ∧
    Forall WellFormed (trace (invoke w clk))).
  { intros clk. destruct (truthy (trim (inputMessage (ui w)))) eqn:Hb.
    - rewrite (invoke_nonblank w clk Hb). simpl. split; [exact Ho|].
      apply Forall_app. split; [exact Hw|].
      repeat (constructor; [exact I|]). constructor; [|constructor].
      unfold WellFormed, chatFetch. simpl.
      repeat split; try reflexivity; try assumption.
      apply (slice_last_length 5). lia.
    - rewrite (invoke_blank w clk Hb). auto. }
  destruct ev as [v | clk | clk | i | q | l | i x clk].
  - simpl in H. apply (inj Some) in H. subst w'. simpl. auto.
  - simpl in H. apply (inj Some) in H. subst w'. apply Hsend.
  - simpl in H. apply (inj Some) in H. subst w'. apply Hsend.
  - simpl in H. destruct (quickActions !! i) as [question|]; simpl in H;
      [|discriminate].
    apply (inj Some) in H. subst w'. simpl. auto.
  - simpl in H. apply (inj Some) in H. subst w'. simpl. auto.
  - simpl in H. apply (inj Some) in H. subst w'. simpl. auto.
  - destruct (settle_settled w i x clk w' (turn_inv_handlers w Hi) H)
      as [j r resp Hj -> | j p r now reply ts dept Hj -> | j p r e now ts Hj ->];
      simpl; (split; [exact Ho|]);
      (apply Forall_app; split; [exact Hw | repeat constructor]).
Qed.

(** X16. Over every run of the widget in which user events come from enabled
    controls, every request that was ever issued is a POST of JSON to
    [/api/chat] whose text is not blank, whose language is one of the four
    the select offers and whose context has five messages at most; the
    selected language itself is always one of the four. *)
Theorem requests_well_formed (t0 : Z) (evs : list Event) (w : World) :
  usteps (initialWorld t0) evs = Some w →
  offered (selectedLanguage (ui w)) = true ∧
  Forall WellFormed (trace w).
Proof.
  intros H.
  apply (usteps_preserve
           (λ w, TurnInv w ∧ offered (selectedLanguage (ui w)) = true
                 ∧ Forall WellFormed (trace w))
           (λ w ev, enabled (ui w) ev = true)) in H.
  - apply H.
  - intros w0 ev w1 (Hi & Ho & Hw) En Hs. split.
    + eapply turn_inv_step; eauto.
    + eapply well_formed_step; eauto.
  - auto.
  - split; [reflexivity|]. split; [reflexivity | constructor].
Qed.

Lemma requests_well_formed_witness :
  offered (selectedLanguage (ui rejectedWorld)) = true ∧
  Forall WellFormed (trace rejectedWorld).
Proof.
  apply (requests_well_formed 1757541000000
           [TypeInput (lit " hi"); PressEnter sampleClock; ClickQuick 1;
            Settle 0 (Reject TypeError) sampleClock]
           rejectedWorld).
  reflexivity.
Defined.
